(** * Kalshi trader: registry schema, reference strategy, API client, dashboard

    A shallow embedding of the parts of the trading system that its
    specification talks about:

    - [Json]: JSON documents, as the JSONB columns and the HTTP bodies
      carry them;
    - [Strategy]: the built-in "high-confidence expiry" rule;
    - [Sql]: the [strategies] and [decisions] tables of the schema
      script, with their constraints and the seed row;
    - [Registry]: create and update on strategy records;
    - [Api]: the frontend client ([req] and the [api] object);
    - [Dashboard]: the refresh cycle and the portfolio figures of [App];
    - [Snapshots]: the [portfolio_snapshots] table;
    - [View] and [Forms]: the helpers, the badges and the forms of the
      dashboard.

    The prices of the rule and the NUMERIC columns are exact rationals
    ([Q]); the figures of the dashboard are binary64 numbers ([float]),
    as JavaScript computes them. *)

From Stdlib Require Import ZArith QArith Qround Lia.
From Stdlib Require Import Lqa.
From Stdlib Require Import Floats.
From stdpp Require Import gmap strings list pretty.

(* ===================================================================== *)
(** ** JSON documents *)
(* ===================================================================== *)

Module Json.

#[warnings="-register-all"]
Inductive JSON : Type :=
| JNull
| JBool (b : bool)
| JNum (q : Q)
| JStr (s : string)
| JArr (items : list JSON)
| JObj (fields : gmap string JSON).

(** Own property of an object; [None] stands for [undefined]. *)
Definition get (k : string) (v : JSON) : option JSON :=
  match v with
  | JObj fields => fields !! k
  | _ => None
  end.

Definition get_num (k : string) (v : JSON) : option Q :=
  match get k v with
  | Some (JNum q) => Some q
  | _ => None
  end.

Definition get_str (k : string) (v : JSON) : option string :=
  match get k v with
  | Some (JStr s) => Some s
  | _ => None
  end.

(** JavaScript truthiness of a parsed JSON value. *)
Definition truthy (v : JSON) : bool :=
  match v with
  | JNull => false
  | JBool b => b
  | JNum q => negb (Qeq_bool q 0%Q)
  | JStr s => negb (String.eqb s "")
  | JArr _ | JObj _ => true
  end.

(** The empty document, ['{}']. *)
Definition empty_object : JSON := JObj ∅.

End Json.

(* ===================================================================== *)
(** ** The built-in reference strategy *)
(* ===================================================================== *)

Module Strategy.
Import Json.

Inductive Action := Buy | Skip | ActError.
Inductive Side := Yes | No.

(** [TradeSignal], with the optional context fields of the contract. *)
Record TradeSignal := {
  action : Action;
  reason : string;
  side : option Side;
  contractPrice : option Q;
  secondsRemaining : option Z;
  portfolioCash : option Q;
  positionSize : option Q;
  contracts : option Z;
  orderId : option string;
}.

Definition bare_signal (a : Action) (why : string) : TradeSignal :=
  {| action := a; reason := why; side := None; contractPrice := None;
     secondsRemaining := None; portfolioCash := None; positionSize := None;
     contracts := None; orderId := None |}.

(** The typed shape of the configuration document of the seed row. *)
Record Config := {
  market_series : string;
  interval_minutes : Q;
  min_price_threshold : Q;
  max_seconds_remaining : Q;
  position_pct : Q;
}.

(** Modelled from the spec: the strategy's own validation of its
    configuration document (the strategy class is not part of the
    sources at hand).  Each of the five keys of the seed document must
    be present with the type the seed gives it. *)
Definition parse_config (doc : JSON) : option Config :=
  series ← get_str "market_series" doc;
  interval ← get_num "interval_minutes" doc;
  threshold ← get_num "min_price_threshold" doc;
  ceiling ← get_num "max_seconds_remaining" doc;
  pct ← get_num "position_pct" doc;
  Some {| market_series := series; interval_minutes := interval;
          min_price_threshold := threshold; max_seconds_remaining := ceiling;
          position_pct := pct |}.

(** What the exchange reports about the open market. *)
Record Market := {
  ticker : string;
  yes_price : Q;
  no_price : Q;
  seconds_remaining : Z;
  close_time : string;
}.

Record ExchangeError := { status : Z; body : string }.

Inductive Lookup :=
| LookupFailed (e : ExchangeError)
| NoOpenMarket
| OpenMarket (m : Market).

Record Order := {
  order_ticker : string;
  order_side : Side;
  order_count : Z;
  order_price : Q;
}.

(** The exchange as the strategy meets it: one answer per query.  The
    position query is part of the exchange's interface, the built-in
    rule never issues it. *)
Record Exchange := {
  find_open_market : string -> Q -> Lookup;
  get_balance : ExchangeError + Q;
  get_positions : ExchangeError + list (string * Q);
  place_order : Order -> ExchangeError + string;
}.

Definition Qlt_bool (a b : Q) : bool := negb (Qle_bool b a).

Definition price_of (s : Side) (m : Market) : Q :=
  match s with Yes => yes_price m | No => no_price m end.

(** Modelled from the spec: the side that is bought is the one whose
    price reaches the threshold, the yes side first. *)
Definition choose_side (cfg : Config) (m : Market) : Side :=
  if Qle_bool (min_price_threshold cfg) (yes_price m) then Yes else No.

(** Modelled from the spec: the evaluate operation of the built-in
    "high-confidence expiry" rule (the strategy class is not part of the
    sources at hand).  Locate the open market; a failed lookup or no
    open market is a skip.  Read prices and time remaining; time above
    the ceiling, or both prices below the threshold, is a skip.
    Otherwise the position size is the configured fraction of the
    available cash, translated to a whole number of contracts at the
    current price of the chosen side; the order is placed, and the
    outcome is a buy with full context, or an error when the exchange
    refuses a call.  (A zero price makes the quotient, and the count,
    zero: division in [Q] is total.) *)
Definition evaluate (cfg : Config) (ex : Exchange) : TradeSignal :=
  match find_open_market ex (market_series cfg) (interval_minutes cfg) with
  | LookupFailed _ => bare_signal Skip "market lookup failed"
  | NoOpenMarket => bare_signal Skip "no open market"
  | OpenMarket m =>
    if Qlt_bool (max_seconds_remaining cfg) (inject_Z (seconds_remaining m))
    then bare_signal Skip "time remaining above ceiling"
    else if Qlt_bool (yes_price m) (min_price_threshold cfg)
            && Qlt_bool (no_price m) (min_price_threshold cfg)
    then bare_signal Skip "both prices below threshold"
    else
      match get_balance ex with
      | inl _ => bare_signal ActError "balance query failed"
      | inr cash =>
        let size := (position_pct cfg * cash)%Q in
        let s := choose_side cfg m in
        let price := price_of s m in
        let count := Qfloor (size / price) in
        let order := {| order_ticker := ticker m; order_side := s;
                        order_count := count; order_price := price |} in
        match place_order ex order with
        | inl _ => bare_signal ActError "order placement failed"
        | inr oid =>
          {| action := Buy; reason := "price and time within limits";
             side := Some s; contractPrice := Some price;
             secondsRemaining := Some (seconds_remaining m);
             portfolioCash := Some cash; positionSize := Some size;
             contracts := Some count; orderId := Some oid |}
        end
      end
  end.

(** Modelled from the spec: evaluation from the stored configuration
    document (the strategy class is not part of the sources at hand); a
    malformed configuration surfaces as an error decision. *)
Definition evaluate_doc (doc : JSON) (ex : Exchange) : TradeSignal :=
  match parse_config doc with
  | Some cfg => evaluate cfg ex
  | None => bare_signal ActError "ConfigError: malformed configuration"
  end.

(** Modelled from the spec: the order an evaluation hands to the
    exchange, and none when the evaluation stops before it places one:
    on a failed lookup, without an open market, with the time above the
    ceiling or both prices below the threshold, or without the balance
    (the strategy class is not part of the sources at hand).  The order
    is for the chosen side at its current price, for as many whole
    contracts as the configured fraction of the cash buys. *)
Definition order_placed (cfg : Config) (ex : Exchange) : option Order :=
  match find_open_market ex (market_series cfg) (interval_minutes cfg) with
  | LookupFailed _ | NoOpenMarket => None
  | OpenMarket m =>
    if Qlt_bool (max_seconds_remaining cfg) (inject_Z (seconds_remaining m))
    then None
    else if Qlt_bool (yes_price m) (min_price_threshold cfg)
            && Qlt_bool (no_price m) (min_price_threshold cfg)
    then None
    else
      match get_balance ex with
      | inl _ => None
      | inr cash =>
        let s := choose_side cfg m in
        Some {| order_ticker := ticker m; order_side := s;
                order_count := Qfloor (position_pct cfg * cash / price_of s m);
                order_price := price_of s m |}
      end
  end.



End Strategy.

(* ===================================================================== *)
(** ** The relational schema: [strategies] and [decisions] *)
(* ===================================================================== *)

Module Sql.
Import Json.
Local Open Scope Z_scope.

Inductive Constraint :=
| strategies_pkey
| strategies_name_key
| decisions_pkey
| decisions_strategy_id_fkey
| decisions_side_check
| decisions_action_check.

Inductive SqlError :=
| not_null_violation (column : string)
| unique_violation (c : Constraint)
| check_violation (c : Constraint)
| foreign_key_violation (c : Constraint)
| numeric_value_out_of_range (column : string)
| sequence_generator_limit_exceeded (sequence : string).

(** A column of an INSERT or of a SET list: left out, or given a value
    ([Given None] is an explicit NULL). *)
Inductive Col (A : Type) :=
| Omitted
| Given (v : option A).
Arguments Omitted {A}.
Arguments Given {A} v.

Definition with_default {A} (c : Col A) (d : option A) : option A :=
  match c with
  | Omitted => d
  | Given v => v
  end.

(** *** Column types *)

(** INTEGER is a 32-bit signed integer. *)
Definition int4_ok (z : Z) : bool := (- 2 ^ 31 <=? z) && (z <? 2 ^ 31).

Definition as_int4 (column : string) (v : option Z) : SqlError + option Z :=
  match v with
  | None => inr None
  | Some z => if int4_ok z then inr (Some z)
              else inl (numeric_value_out_of_range column)
  end.

Definition round_half_away (q : Q) : Z :=
  let n := Qnum q in
  let d := Z.pos (Qden q) in
  if 0 <=? n then (2 * n + d) / (2 * d) else - ((2 * - n + d) / (2 * d)).

(** NUMERIC(p,s): rounded to [s] decimals, at most [p] digits in all. *)
Definition as_numeric (p s : Z) (column : string) (v : option Q)
  : SqlError + option Q :=
  match v with
  | None => inr None
  | Some q =>
    let scaled := round_half_away (q * inject_Z (10 ^ s))%Q in
    if Z.abs scaled <? 10 ^ p then inr (Some (scaled # Z.to_pos (10 ^ s)))
    else inl (numeric_value_out_of_range column)
  end.

(** [x IN (...)] is NULL on a NULL operand; a CHECK constraint only
    rejects a row on which its expression is false. *)
Definition sql_in (v : option string) (l : list string) : option bool :=
  (λ s, bool_decide (s ∈ l)) <$> v.

Definition check_holds (e : option bool) : bool :=
  match e with
  | Some false => false
  | _ => true
  end.

(** *** Rows *)

Record StrategyRow := {
  s_id : Z;
  s_name : option string;
  s_description : option string;
  s_enabled : option bool;
  s_config : option JSON;
  s_created_at : option Z;
  s_updated_at : option Z;
}.

Record DecisionRow := {
  d_id : Z;
  d_strategy_id : option Z;
  d_market_ticker : option string;
  d_side : option string;
  d_action : option string;
  d_reason : option string;
  d_contract_price : option Q;
  d_time_remaining_seconds : option Z;
  d_portfolio_cash : option Q;
  d_position_size : option Q;
  d_contracts : option Z;
  d_order_id : option string;
  d_params : option JSON;
  d_created_at : option Z;
}.

(** The database: both tables and the last value of each SERIAL
    sequence.  The sequence of a SERIAL column ends at [2 ^ 31 - 1]:
    the insert into [decisions] fails from there on; the sequence of
    [strategies] is taken as unbounded, and the model of the inserts
    into [strategies] is that of the schema on the databases whose
    strategies sequence is below that value. *)
Record Db := {
  strategies : list StrategyRow;
  strategies_id_seq : Z;
  decisions : list DecisionRow;
  decisions_id_seq : Z;
}.

(** After the two CREATE TABLE statements. *)
Definition empty_db : Db :=
  {| strategies := []; strategies_id_seq := 0;
     decisions := []; decisions_id_seq := 0 |}.

(** *** NOT NULL *)

Definition is_null {A} (v : option A) : bool :=
  match v with None => true | Some _ => false end.

(** First column of a candidate row that breaks a NOT NULL constraint. *)
Definition strategy_null_column (r : StrategyRow) : option string :=
  if is_null (s_name r) then Some "name"
  else if is_null (s_enabled r) then Some "enabled"
  else if is_null (s_config r) then Some "config"
  else if is_null (s_created_at r) then Some "created_at"
  else if is_null (s_updated_at r) then Some "updated_at"
  else None.

Definition decision_null_column (r : DecisionRow) : option string :=
  if is_null (d_market_ticker r) then Some "market_ticker"
  else if is_null (d_side r) then Some "side"
  else if is_null (d_action r) then Some "action"
  else if is_null (d_params r) then Some "params"
  else if is_null (d_created_at r) then Some "created_at"
  else None.

(** *** INSERT INTO strategies *)

Record StrategyInsert := {
  ins_name : Col string;
  ins_description : Col string;
  ins_enabled : Col bool;
  ins_config : Col JSON;
}.

Definition name_taken (n : option string) (rows : list StrategyRow) : bool :=
  bool_decide (n ∈ s_name <$> rows).

Definition id_taken (i : Z) (rows : list StrategyRow) : bool :=
  bool_decide (i ∈ s_id <$> rows).

(** The result is the number of rows inserted.  The sequence value is
    drawn before any constraint is looked at, and is not given back. *)
Definition insert_strategy (now : Z) (on_conflict_name_do_nothing : bool)
    (ins : StrategyInsert) (db : Db) : (SqlError + Z) * Db :=
  let id := strategies_id_seq db + 1 in
  let rows := strategies db in
  let drawn := {| strategies := rows; strategies_id_seq := id;
                  decisions := decisions db;
                  decisions_id_seq := decisions_id_seq db |} in
  let r := {| s_id := id;
              s_name := with_default (ins_name ins) None;
              s_description := with_default (ins_description ins) None;
              s_enabled := with_default (ins_enabled ins) (Some true);
              s_config := with_default (ins_config ins) (Some empty_object);
              s_created_at := Some now;
              s_updated_at := Some now |} in
  match strategy_null_column r with
  | Some column => (inl (not_null_violation column), drawn)
  | None =>
    if on_conflict_name_do_nothing && name_taken (s_name r) rows
    then (inr 0, drawn)
    else if id_taken id rows then (inl (unique_violation strategies_pkey), drawn)
    else if name_taken (s_name r) rows
    then (inl (unique_violation strategies_name_key), drawn)
    else (inr 1, {| strategies := rows ++ [r]; strategies_id_seq := id;
                    decisions := decisions db;
                    decisions_id_seq := decisions_id_seq db |})
  end.

(** *** UPDATE strategies SET enabled = .., config = .. WHERE .. *)

Record StrategyAssign := {
  set_enabled : Col bool;
  set_config : Col JSON;
}.

Definition assign (a : StrategyAssign) (r : StrategyRow) : StrategyRow :=
  {| s_id := s_id r;
     s_name := s_name r;
     s_description := s_description r;
     s_enabled := with_default (set_enabled a) (s_enabled r);
     s_config := with_default (set_config a) (s_config r);
     s_created_at := s_created_at r;
     s_updated_at := s_updated_at r |}.

Definition assign_where (cond : StrategyRow -> bool) (a : StrategyAssign)
    (r : StrategyRow) : StrategyRow :=
  if cond r then assign a r else r.

Fixpoint first_null_column (rows : list StrategyRow) : option string :=
  match rows with
  | [] => None
  | r :: rest =>
    match strategy_null_column r with
    | Some column => Some column
    | None => first_null_column rest
    end
  end.

(** The result is the number of rows matched; a failing statement
    changes nothing. *)
Definition update_strategies (cond : StrategyRow -> bool)
    (a : StrategyAssign) (db : Db) : (SqlError + Z) * Db :=
  let rows' := assign_where cond a <$> strategies db in
  match first_null_column rows' with
  | Some column => (inl (not_null_violation column), db)
  | None =>
    (inr (Z.of_nat (length (filter (λ r, cond r = true) (strategies db)))),
     {| strategies := rows'; strategies_id_seq := strategies_id_seq db;
        decisions := decisions db;
        decisions_id_seq := decisions_id_seq db |})
  end.

(** *** INSERT INTO decisions *)

Record DecisionInsert := {
  ins_strategy_id : Col Z;
  ins_market_ticker : Col string;
  ins_side : Col string;
  ins_action : Col string;
  ins_reason : Col string;
  ins_contract_price : Col Q;
  ins_time_remaining_seconds : Col Z;
  ins_portfolio_cash : Col Q;
  ins_position_size : Col Q;
  ins_contracts : Col Z;
  ins_order_id : Col string;
  ins_params : Col JSON;
}.

Definition strategy_exists (sid : option Z) (rows : list StrategyRow) : bool :=
  match sid with
  | None => true
  | Some i => id_taken i rows
  end.

Definition decision_id_taken (i : Z) (rows : list DecisionRow) : bool :=
  bool_decide (i ∈ d_id <$> rows).

(** Constraints on a candidate row whose values have their column
    types: NOT NULL, then the two CHECKs in the order of their names,
    then the primary key, then the foreign key. *)
Definition decision_violation (r : DecisionRow) (db : Db) : option SqlError :=
  match decision_null_column r with
  | Some column => Some (not_null_violation column)
  | None =>
    if negb (check_holds (sql_in (d_action r) ["buy"; "skip"; "error"]))
    then Some (check_violation decisions_action_check)
    else if negb (check_holds (sql_in (d_side r) ["yes"; "no"]))
    then Some (check_violation decisions_side_check)
    else if decision_id_taken (d_id r) (decisions db)
    then Some (unique_violation decisions_pkey)
    else if negb (strategy_exists (d_strategy_id r) (strategies db))
    then Some (foreign_key_violation decisions_strategy_id_fkey)
    else None
  end.

(** The candidate row: defaults filled in, values brought to their
    column types. *)
Definition decision_row (now id : Z) (ins : DecisionInsert)
  : SqlError + DecisionRow :=
  match as_int4 "strategy_id" (with_default (ins_strategy_id ins) None) with
  | inl e => inl e
  | inr sid =>
  match as_numeric 10 4 "contract_price"
          (with_default (ins_contract_price ins) None) with
  | inl e => inl e
  | inr price =>
  match as_int4 "time_remaining_seconds"
          (with_default (ins_time_remaining_seconds ins) None) with
  | inl e => inl e
  | inr secs =>
  match as_numeric 14 2 "portfolio_cash"
          (with_default (ins_portfolio_cash ins) None) with
  | inl e => inl e
  | inr cash =>
  match as_numeric 14 2 "position_size"
          (with_default (ins_position_size ins) None) with
  | inl e => inl e
  | inr size =>
  match as_int4 "contracts" (with_default (ins_contracts ins) None) with
  | inl e => inl e
  | inr count =>
    inr {| d_id := id;
           d_strategy_id := sid;
           d_market_ticker := with_default (ins_market_ticker ins) None;
           d_side := with_default (ins_side ins) None;
           d_action := with_default (ins_action ins) None;
           d_reason := with_default (ins_reason ins) None;
           d_contract_price := price;
           d_time_remaining_seconds := secs;
           d_portfolio_cash := cash;
           d_position_size := size;
           d_contracts := count;
           d_order_id := with_default (ins_order_id ins) None;
           d_params := with_default (ins_params ins) (Some empty_object);
           d_created_at := Some now |}
  end end end end end end.

(** The result is the id of the stored row.  A value that does not fit
    the type of its column is refused before the sequence is drawn
    from; the sequence of the SERIAL column ends at [2 ^ 31 - 1], and
    has no value to give from there on; the constraints are looked at
    after, and the value drawn is not given back. *)
Definition insert_decision (now : Z) (ins : DecisionInsert) (db : Db)
  : (SqlError + Z) * Db :=
  let id := decisions_id_seq db + 1 in
  let drawn := {| strategies := strategies db;
                  strategies_id_seq := strategies_id_seq db;
                  decisions := decisions db; decisions_id_seq := id |} in
  match decision_row now id ins with
  | inl e => (inl e, db)
  | inr r =>
    if 2 ^ 31 - 1 <=? decisions_id_seq db
    then (inl (sequence_generator_limit_exceeded "decisions_id_seq"), db)
    else
      match decision_violation r db with
      | Some e => (inl e, drawn)
      | None =>
        (inr id, {| strategies := strategies db;
                    strategies_id_seq := strategies_id_seq db;
                    decisions := decisions db ++ [r];
                    decisions_id_seq := id |})
      end
  end.

(** *** The seed *)

Definition seed_config : JSON :=
  JObj (list_to_map
    [("market_series", JStr "KXBTC");
     ("interval_minutes", JNum 15%Q);
     ("min_price_threshold", JNum 0.90%Q);
     ("max_seconds_remaining", JNum 60%Q);
     ("position_pct", JNum 0.05%Q)]).

Definition seed : StrategyInsert :=
  {| ins_name := Given (Some "btc_15m_high_confidence");
     ins_description := Given (Some
       "Buy BTC 15-minute contracts when < 1 min remaining and price ≥ 0.90");
     ins_enabled := Given (Some true);
     ins_config := Given (Some seed_config) |}.

(** *** Statements and the databases they lead to *)

Inductive Stmt :=
| InsertStrategy (on_conflict_name_do_nothing : bool) (ins : StrategyInsert)
| UpdateStrategies (cond : StrategyRow -> bool) (a : StrategyAssign)
| InsertDecision (ins : DecisionInsert).

Definition exec (now : Z) (st : Stmt) (db : Db) : (SqlError + Z) * Db :=
  match st with
  | InsertStrategy dn ins => insert_strategy now dn ins db
  | UpdateStrategies cond a => update_strategies cond a db
  | InsertDecision ins => insert_decision now ins db
  end.

(** The schema script: both tables, then the seed row. *)
Definition init_db (now : Z) : Db :=
  snd (exec now (InsertStrategy true seed) empty_db).

Inductive reachable : Db -> Prop :=
| reach_empty : reachable empty_db
| reach_exec now st db : reachable db -> reachable (snd (exec now st db)).

End Sql.

(* ===================================================================== *)
(** ** The strategy registry *)
(* ===================================================================== *)

Module Registry.
Import Json Sql.
Local Open Scope Z_scope.

Inductive RegistryError :=
| DuplicateName
| NotFound
| PersistenceError (e : SqlError).

(** The record handed to [create]; the flag and the configuration may be
    left out. *)
Record NewStrategy := {
  new_name : string;
  new_description : option string;
  new_enabled : option bool;
  new_config : option JSON;
}.

(** The partial handed to [update]. *)
Record Partial := {
  p_enabled : option bool;
  p_config : option JSON;
}.

Definition col_of {A} (o : option A) : Col A :=
  match o with
  | Some v => Given (Some v)
  | None => Omitted
  end.

Definition has_name (name : string) (r : StrategyRow) : bool :=
  bool_decide (s_name r = Some name).

(** Modelled from the spec: [list()] and [get(name)] (the registry code
    is not part of the sources at hand). *)
Definition list (db : Db) : list StrategyRow := strategies db.

Definition get (name : string) (db : Db) : option StrategyRow :=
  List.find (has_name name) (strategies db).

(** Modelled from the spec: [create(record)], which fails with
    [DuplicateName] if the name exists (the registry code is not part of
    the sources at hand).  The record is inserted into [strategies]; the
    table's UNIQUE constraint on the name is what detects the
    duplicate. *)
Definition create (now : Z) (n : NewStrategy) (db : Db)
  : (RegistryError + unit) * Db :=
  let ins := {| ins_name := Given (Some (new_name n));
                ins_description := col_of (new_description n);
                ins_enabled := col_of (new_enabled n);
                ins_config := col_of (new_config n) |} in
  match insert_strategy now false ins db with
  | (inr _, db') => (inr tt, db')
  | (inl (unique_violation strategies_name_key), db') => (inl DuplicateName, db')
  | (inl e, db') => (inl (PersistenceError e), db')
  end.

(** Modelled from the spec: [update(name, partial)], on the enabled flag
    and/or the configuration, which fails with [NotFound] if the name is
    absent (the registry code is not part of the sources at hand).  The
    contract names the flag and the configuration only, and the
    statement sets nothing else. *)
Definition update (name : string) (p : Partial) (db : Db)
  : (RegistryError + unit) * Db :=
  let a := {| set_enabled := col_of (p_enabled p);
              set_config := col_of (p_config p) |} in
  match update_strategies (has_name name) a db with
  | (inr 0%Z, _) => (inl NotFound, db)
  | (inr _, db') => (inr tt, db')
  | (inl e, _) => (inl (PersistenceError e), db)
  end.

End Registry.

(* ===================================================================== *)
(** ** JavaScript completions *)
(* ===================================================================== *)

Module Js.
Import Json.

(** What a JavaScript computation can throw here.  [Error v] is the
    object built by [new Error(v)]: its message is [String(v)], which is
    [s] itself when [v] is the string [s]. *)
Inductive Exn :=
| Error (arg : JSON)
| TypeError (message : string)
| SyntaxError (message : string)
| FetchFailed (message : string).

(** The outcome of a call, or of a settled promise. *)
Inductive Completion (A : Type) :=
| Return (a : A)
| Throw (e : Exn).
Arguments Return {A} a.
Arguments Throw {A} e.

#[global] Instance completion_ret : MRet Completion := λ A a, Return a.
#[global] Instance completion_bind : MBind Completion := λ A B f c,
  match c with
  | Return a => f a
  | Throw e => Throw e
  end.

(** [p.catch(() => v)] *)
Definition catch_with {A} (v : A) (p : Completion A) : Completion A :=
  match p with
  | Return a => Return a
  | Throw _ => Return v
  end.

(** [Promise.all] over promises that have settled. *)
Fixpoint all {A} (ps : list (Completion A)) : Completion (list A) :=
  match ps with
  | [] => Return []
  | p :: rest => a ← p; others ← all rest; Return (a :: others)
  end.

End Js.

(* ===================================================================== *)
(** ** The frontend API client *)
(* ===================================================================== *)

Module Api.
Import Json Js.
Local Open Scope Z_scope.

Definition BASE : string := "/api".

(** The second argument of [req]. *)
Record Opts := {
  opt_method : option string;
  opt_body : option JSON;
}.

Definition no_opts : Opts := {| opt_method := None; opt_body := None |}.

(** What [fetch] is called with.  The body is the document that
    [JSON.stringify] serialized. *)
Record Request := {
  url : string;
  headers : list (string * string);
  method : option string;
  req_body : option JSON;
}.

(** An HTTP response; [body] is [None] when the text of the body is not
    valid JSON. *)
Record Response := {
  status : Z;
  statusText : string;
  body : option JSON;
}.

(** [Response.ok]: the status is in the range 200-299. *)
Definition ok (r : Response) : bool := (200 <=? status r) && (status r <=? 299).

(** [r.json()] *)
Definition json (r : Response) : Completion JSON :=
  match body r with
  | Some v => Return v
  | None => Throw (SyntaxError "Unexpected token in JSON")
  end.

(** [err.detail]: reading a property of [null] throws, a missing
    property is [undefined]. *)
Definition detail_of (err : JSON) : Completion (option JSON) :=
  match err with
  | JNull => Throw (TypeError "Cannot read properties of null (reading 'detail')")
  | _ => Return (get "detail" err)
  end.

(** [d || fallback] *)
Definition or_else (d : option JSON) (fallback : JSON) : JSON :=
  match d with
  | Some v => if truthy v then v else fallback
  | None => fallback
  end.

Definition Fetch := Request -> Completion Response.

(** The call [fetch(BASE + path, { headers: .., ...opts })]. *)
Definition request_of (path : string) (opts : Opts) : Request :=
  {| url := BASE +:+ path;
     headers := [("Content-Type", "application/json")];
     method := opt_method opts;
     req_body := opt_body opts |}.

Definition req (fetch : Fetch) (path : string) (opts : Opts) : Completion JSON :=
  r ← fetch (request_of path opts);
  if negb (ok r) then
    err ← catch_with (JObj {["detail" := JStr (statusText r)]}) (json r);
    d ← detail_of err;
    Throw (Error (or_else d (JStr (statusText r))))
  else json r.

(** Arguments the callers pass to the methods of [api]. *)
Inductive Arg :=
| ANum (z : Z)
| AStr (s : string)
| ADoc (d : JSON).

(** A value inside a template literal; a missing argument reads
    [undefined]. *)
Definition text (a : option Arg) : string :=
  match a with
  | None => "undefined"
  | Some (ANum z) => pretty z
  | Some (AStr s) => s
  | Some (ADoc _) => "[object Object]"
  end.

Definition arg_truthy (a : option Arg) : bool :=
  match a with
  | None => false
  | Some (ANum z) => negb (z =? 0)
  | Some (AStr s) => negb (String.eqb s "")
  | Some (ADoc d) => truthy d
  end.

(** [JSON.stringify(a)] *)
Definition stringify (a : option Arg) : option JSON :=
  match a with
  | None => None
  | Some (ANum z) => Some (JNum (inject_Z z))
  | Some (AStr s) => Some (JStr s)
  | Some (ADoc d) => Some d
  end.

(** A parameter with a default value. *)
Definition param (args : list Arg) (i : nat) (d : Arg) : option Arg :=
  Some (default d (args !! i)).

(** A method of [api]: from its arguments to the call of [req]. *)
Definition Method : Type := list Arg -> string * Opts.

Definition portfolio : Method := λ _, ("/portfolio", no_opts).

Definition portfolioHistory : Method := λ args,
  ("/portfolio/history?limit=" +:+ text (param args 0 (ANum 120)), no_opts).

Definition strategies : Method := λ _, ("/strategies", no_opts).

Definition updateStrategy : Method := λ args,
  ("/strategies/" +:+ text (args !! 0%nat),
   {| opt_method := Some "PATCH"; opt_body := stringify (args !! 1%nat) |}).

Definition createStrategy : Method := λ args,
  ("/strategies",
   {| opt_method := Some "POST"; opt_body := stringify (args !! 0%nat) |}).

Definition decisions : Method := λ args,
  ("/decisions?limit=" +:+ text (param args 0 (ANum 100))
     +:+ (if arg_truthy (args !! 1%nat)
          then "&action=" +:+ text (args !! 1%nat) else ""),
   no_opts).

Definition decisionStats : Method := λ _, ("/decisions/stats", no_opts).

Definition markets : Method := λ args,
  ("/markets/" +:+ text (args !! 0%nat), no_opts).

(** The exported object. *)
Definition api : gmap string Method :=
  list_to_map
    [("portfolio", portfolio);
     ("portfolioHistory", portfolioHistory);
     ("strategies", strategies);
     ("updateStrategy", updateStrategy);
     ("createStrategy", createStrategy);
     ("decisions", decisions);
     ("decisionStats", decisionStats);
     ("markets", markets)].

(** [client.name(args)] for a name that [Object.prototype] does not
    define ([constructor], [toString], [valueOf] and the like, which
    every object literal inherits and which are read from there when
    the object has no property of its own by that name): calling a
    property that is not there throws at the call; otherwise the call
    returns the promise of [req]. *)
Definition call (client : gmap string Method) (fetch : Fetch)
    (name : string) (args : list Arg) : Completion (Completion JSON) :=
  match client !! name with
  | None => Throw (TypeError ("api." +:+ name +:+ " is not a function"))
  | Some m => let '(path, opts) := m args in Return (req fetch path opts)
  end.

End Api.

(* ===================================================================== *)
(** ** The dashboard *)
(* ===================================================================== *)

Module Dashboard.
Import Json Js Api.

(** The state cells of [App] that [refresh] writes. *)
Record AppState := {
  st_portfolio : JSON;
  st_history : JSON;
  st_decisions : JSON;
  st_stats : JSON;
  st_strategies : JSON;
  st_marketState : JSON;
  st_apiStats : JSON;
  st_loading : bool;
  st_lastUpdate : option Z;
  st_connected : bool;
}.

Definition initial : AppState :=
  {| st_portfolio := JNull; st_history := JArr []; st_decisions := JArr [];
     st_stats := JObj ∅; st_strategies := JArr []; st_marketState := JNull;
     st_apiStats := JNull; st_loading := true; st_lastUpdate := None;
     st_connected := false |}.

(** The [try] block of [refresh], up to the destructuring: the seven
    calls are made in order, then awaited together. *)
Definition fetch_all (client : gmap string Method) (fetch : Fetch)
  : Completion (list JSON) :=
  p ← call client fetch "portfolio" [];
  h ← call client fetch "portfolioHistory" [];
  d ← call client fetch "decisions" [ANum 50];
  s ← call client fetch "decisionStats" [];
  st ← call client fetch "strategies" [];
  ms ← call client fetch "marketState" [];
  as_ ← call client fetch "apiStats" [];
  all [catch_with JNull p; h; d; s; st; catch_with JNull ms; catch_with JNull as_].




(** What a read is stored as when its failure is tolerated. *)
Definition or_null (p : Completion JSON) : JSON :=
  match p with
  | Return v => v
  | Throw _ => JNull
  end.

Definition set_connected (c : bool) (a : AppState) : AppState :=
  {| st_portfolio := st_portfolio a; st_history := st_history a;
     st_decisions := st_decisions a; st_stats := st_stats a;
     st_strategies := st_strategies a; st_marketState := st_marketState a;
     st_apiStats := st_apiStats a; st_loading := st_loading a;
     st_lastUpdate := st_lastUpdate a; st_connected := c |}.

Definition set_loading (l : bool) (a : AppState) : AppState :=
  {| st_portfolio := st_portfolio a; st_history := st_history a;
     st_decisions := st_decisions a; st_stats := st_stats a;
     st_strategies := st_strategies a; st_marketState := st_marketState a;
     st_apiStats := st_apiStats a; st_loading := l;
     st_lastUpdate := st_lastUpdate a; st_connected := st_connected a |}.

(** One run of [refresh] at time [now]. *)
Definition refresh (client : gmap string Method) (fetch : Fetch) (now : Z)
    (a : AppState) : AppState :=
  set_loading false
    match fetch_all client fetch with
    | Return [p; h; d; s; st; ms; as_] =>
      {| st_portfolio := p; st_history := h; st_decisions := d;
         st_stats := s; st_strategies := st; st_marketState := ms;
         st_apiStats := as_; st_loading := st_loading a;
         st_lastUpdate := Some now; st_connected := true |}
    | _ => set_connected false a
    end.

(** *** The side of a decision, as the log shows it *)

(** What [SideIndicator] renders: a dash, or the side in upper case,
    green for yes and red otherwise. *)
Inductive SideView :=
| Dash
| SideLabel (side : string) (green : bool).

(** [side] is [None] when the record has no side (null or undefined). *)
Definition SideIndicator (side : option string) : SideView :=
  match side with
  | None => Dash
  | Some s =>
    if String.eqb s "" || String.eqb s "unknown" then Dash
    else SideLabel s (String.eqb s "yes")
  end.

(** *** Portfolio figures *)

(** The numbers of a JSON body are binary64 numbers ([float]), and the
    arithmetic on them is the arithmetic of JavaScript. *)
Record Balance := { balance : option float }.

Record Position := {
  pos_ticker : string;
  position : option float;
  no_position : option float;
  market_exposure : option float;
}.

(** The body of the portfolio read; [None] is [null] or a missing
    field. *)
Record Portfolio := {
  p_balance : option Balance;
  p_positions : option (list Position);
}.

(** [x || 0] on a number or a missing field: [0], [-0] and [NaN] are
    the numbers that [||] passes over. *)
Definition or_zero (x : option float) : float :=
  match x with
  | Some x => if is_zero x || is_nan x then 0%float else x
  | None => 0%float
  end.

Definition cash (portfolio : option Portfolio) : option float :=
  match (portfolio ≫= p_balance) ≫= balance with
  | Some b => Some (b / 100)%float
  | None => None
  end.

Definition positions (portfolio : option Portfolio) : list Position :=
  default [] (portfolio ≫= p_positions).

Definition posValue (portfolio : option Portfolio) : float :=
  fold_left (λ sum p, (sum + or_zero (market_exposure p) / 100)%float)
            (positions portfolio) 0%float.

Definition totalValue (portfolio : option Portfolio) : option float :=
  match cash portfolio with
  | Some c => Some (c + posValue portfolio)%float
  | None => None
  end.

(** The figures as the specification words them, to be compared with
    the three above.  What one position adds to the positions value:
    its exposure in dollars, and nothing when it has no exposure, or an
    exposure that is zero or not a number. *)
Definition exposure_dollars (p : Position) : float :=
  match market_exposure p with
  | Some e => if is_zero e || is_nan e then 0%float else (e / 100)%float
  | None => 0%float
  end.

(** The sum of the positions listed last position first: what the
    earlier positions add up to, plus the last one. *)
Fixpoint exposure_sum_rev (ps : list Position) : float :=
  match ps with
  | [] => 0%float
  | p :: earlier => (exposure_sum_rev earlier + exposure_dollars p)%float
  end.

(** The sum over the positions in the order of the list; binary64
    addition is not associative, so the order is part of the figure. *)
Definition exposure_sum (ps : list Position) : float :=
  exposure_sum_rev (rev ps).

End Dashboard.

(* ===================================================================== *)
(** ** Invariants of the database *)
(* ===================================================================== *)

Module Invariant.
Import Json Sql.
Local Open Scope Z_scope.

(** A stored strategy row: no NULL in a NOT NULL column, and an id the
    sequence has handed out. *)
Definition strategy_row_ok (seq : Z) (r : StrategyRow) : Prop :=
  strategy_null_column r = None ∧ 0 < s_id r ≤ seq.

(** A stored decision row: no NULL in a NOT NULL column, and a side and
    an action among the values the CHECK constraints list. *)
Definition decision_row_ok (r : DecisionRow) : Prop :=
  decision_null_column r = None
  ∧ (d_side r = Some "yes" ∨ d_side r = Some "no")
  ∧ (d_action r = Some "buy" ∨ d_action r = Some "skip"
     ∨ d_action r = Some "error").

Record db_ok (db : Db) : Prop := {
  ok_seq : 0 ≤ strategies_id_seq db;
  ok_rows : Forall (strategy_row_ok (strategies_id_seq db)) (strategies db);
  ok_ids : NoDup (s_id <$> strategies db);
  ok_names : NoDup (s_name <$> strategies db);
  ok_decisions : Forall decision_row_ok (decisions db);
}.

End Invariant.

(* ===================================================================== *)
(** ** Concrete inputs used by the examples *)
(* ===================================================================== *)

Module Scenario.
Import Json Strategy.

(** The market of the first scenario: 45 seconds left, yes at 0.92. *)
Definition closing_market : Market :=
  {| ticker := "KXBTC-15M"; yes_price := 0.92; no_price := 0.08;
     seconds_remaining := 45; close_time := "2025-01-01T00:15:00Z" |}.

(** The market of the second scenario: 120 seconds left, yes at 0.95. *)
Definition early_market : Market :=
  {| ticker := "KXBTC-15M"; yes_price := 0.95; no_price := 0.05;
     seconds_remaining := 120; close_time := "2025-01-01T00:15:00Z" |}.

(** An exchange that reports [m] as the open market of every series,
    holds 1000 dollars of cash and the given positions, and accepts
    every order under the id ["order-1"]. *)
Definition exchange_with (m : Market) (held : list (string * Q)) : Exchange :=
  {| find_open_market := λ _ _, OpenMarket m;
     get_balance := inr 1000%Q;
     get_positions := inr held;
     place_order := λ _, inr "order-1" |}.



Definition seeded : Config :=
  {| market_series := "KXBTC"; interval_minutes := 15;
     min_price_threshold := 0.90; max_seconds_remaining := 60;
     position_pct := 0.05 |}.

End Scenario.

Module SqlScenario.
Import Json Sql Registry.
Local Open Scope Z_scope.

(** The record of a skip decision taken before any side was chosen,
    stored under the side ["unknown"]. *)
Definition skip_without_side : DecisionInsert :=
  {| ins_strategy_id := Given (Some 1);
     ins_market_ticker := Given (Some "KXBTC-15M");
     ins_side := Given (Some "unknown");
     ins_action := Given (Some "skip");
     ins_reason := Given (Some "time remaining above ceiling");
     ins_contract_price := Omitted;
     ins_time_remaining_seconds := Given (Some 120);
     ins_portfolio_cash := Omitted;
     ins_position_size := Omitted;
     ins_contracts := Omitted;
     ins_order_id := Omitted;
     ins_params := Given (Some seed_config) |}.

(** The record of a buy on the yes side. *)
Definition buy_yes : DecisionInsert :=
  {| ins_strategy_id := Given (Some 1);
     ins_market_ticker := Given (Some "KXBTC-15M");
     ins_side := Given (Some "yes");
     ins_action := Given (Some "buy");
     ins_reason := Given (Some "price and time within limits");
     ins_contract_price := Given (Some 0.92%Q);
     ins_time_remaining_seconds := Given (Some 45);
     ins_portfolio_cash := Given (Some 1000%Q);
     ins_position_size := Given (Some 50%Q);
     ins_contracts := Given (Some 54);
     ins_order_id := Given (Some "order-1");
     ins_params := Given (Some seed_config) |}.

(** A second strategy, created from a name and a description alone. *)
Definition second_strategy : NewStrategy :=
  {| new_name := "my_strategy"; new_description := Some "";
     new_enabled := None; new_config := None |}.


Definition disable : Partial := {| p_enabled := Some false; p_config := None |}.

(** The row the schema script stores at time 0. *)
Definition seed_row : StrategyRow :=
  {| s_id := 1;
     s_name := Some "btc_15m_high_confidence";
     s_description := Some
       "Buy BTC 15-minute contracts when < 1 min remaining and price ≥ 0.90";
     s_enabled := Some true;
     s_config := Some seed_config;
     s_created_at := Some 0;
     s_updated_at := Some 0 |}.

End SqlScenario.

Module ApiScenario.
Import Json Js Api Dashboard.
Local Open Scope Z_scope.

(** A 204 answer: the status is ok, the body is empty. *)
Definition no_content : Response :=
  {| status := 204; statusText := "No Content"; body := None |}.

(** A 400 answer whose detail is the empty string. *)
Definition empty_detail : Response :=
  {| status := 400; statusText := "Bad Request";
     body := Some (JObj {["detail" := JStr ""]}) |}.

(** A 404 answer with a detail. *)
Definition not_found : Response :=
  {| status := 404; statusText := "Not Found";
     body := Some (JObj {["detail" := JStr "Strategy not found"]}) |}.

(** A server that gives the same answer to every request. *)
Definition always (r : Response) : Fetch := λ _, Return r.

(** The exported object with the two reads the dashboard also asks
    for, whatever requests they make. *)
Definition complete_client (marketState apiStats : Method) : gmap string Method :=
  <["marketState" := marketState]> (<["apiStats" := apiStats]> api).

Definition empty_list : Response :=
  {| status := 200; statusText := "OK"; body := Some (JArr []) |}.

(** A portfolio with 1234.56 dollars of cash and three positions: ten
    cents, twenty cents, and one without an exposure. *)
Definition three_positions : Portfolio :=
  {| p_balance := Some {| balance := Some 123456%float |};
     p_positions := Some
       [ {| pos_ticker := "KXBTC-A"; position := Some 3%float;
            no_position := None; market_exposure := Some 10%float |};
         {| pos_ticker := "KXBTC-B"; position := Some 1%float;
            no_position := None; market_exposure := Some 20%float |};
         {| pos_ticker := "KXBTC-C"; position := None;
            no_position := Some 1%float; market_exposure := None |} ] |}.

End ApiScenario.

(* ===================================================================== *)
(** ** Invariants of the decision log *)
(* ===================================================================== *)

Module Log.
Import Json Sql.
Local Open Scope Z_scope.

Definition int4_or_null (v : option Z) : Prop :=
  match v with
  | None => True
  | Some z => - 2 ^ 31 ≤ z < 2 ^ 31
  end.

(** The ids of the log: handed out by the sequence, and growing along
    the log. *)
Record log_ok (db : Db) : Prop := {
  log_seq : 0 ≤ decisions_id_seq db;
  log_bound : Forall (λ r, 0 < d_id r ≤ decisions_id_seq db) (decisions db);
  log_sorted :
    ∀ i j ri rj, (i < j)%nat →
      decisions db !! i = Some ri → decisions db !! j = Some rj →
      d_id ri < d_id rj;
  log_refs :
    Forall (λ r, ∀ sid, d_strategy_id r = Some sid →
                        sid ∈ s_id <$> strategies db) (decisions db);
  log_ints :
    Forall (λ r, int4_or_null (d_strategy_id r)
                 ∧ int4_or_null (d_time_remaining_seconds r)
                 ∧ int4_or_null (d_contracts r)) (decisions db);
}.

End Log.

(* ===================================================================== *)
(** ** The relational schema: [portfolio_snapshots] *)
(* ===================================================================== *)

Module Snapshots.
Import Sql.
Local Open Scope Z_scope.

Record SnapshotRow := {
  p_id : Z;
  p_cash : option Q;
  p_positions_value : option Q;
  p_total_value : option Q;
  p_created_at : option Z;
}.

(** The table and the last value of its SERIAL sequence; no other table
    refers to it. *)
Record Table := {
  rows : list SnapshotRow;
  id_seq : Z;
}.

Definition empty_table : Table := {| rows := []; id_seq := 0 |}.

Record SnapshotInsert := {
  ins_cash : Col Q;
  ins_positions_value : Col Q;
  ins_total_value : Col Q;
}.

(** An error of a column type or of the sequence of the SERIAL column,
    or the violation of the table's primary key. *)
Inductive SnapshotError :=
| sql_error (e : SqlError)
| portfolio_snapshots_pkey_violation.

Definition snapshot_id_taken (i : Z) (rs : list SnapshotRow) : bool :=
  bool_decide (i ∈ p_id <$> rs).

(** The result is the id of the stored row.  The three amounts are
    NUMERIC(14,2) and may be NULL; the creation time is filled in.  An
    amount that does not fit its column is refused before the sequence
    is drawn from, and leaves it as it is; the sequence of a SERIAL
    column ends at [2 ^ 31 - 1], and has no value to give from there
    on; a value drawn is not given back. *)
Definition insert_snapshot (now : Z) (ins : SnapshotInsert) (t : Table)
  : (SnapshotError + Z) * Table :=
  match as_numeric 14 2 "cash" (with_default (ins_cash ins) None) with
  | inl e => (inl (sql_error e), t)
  | inr cash =>
  match as_numeric 14 2 "positions_value"
          (with_default (ins_positions_value ins) None) with
  | inl e => (inl (sql_error e), t)
  | inr positions =>
  match as_numeric 14 2 "total_value"
          (with_default (ins_total_value ins) None) with
  | inl e => (inl (sql_error e), t)
  | inr total =>
    if 2 ^ 31 - 1 <=? id_seq t
    then (inl (sql_error
                 (sequence_generator_limit_exceeded
                    "portfolio_snapshots_id_seq")), t)
    else
      let id := id_seq t + 1 in
      if snapshot_id_taken id (rows t)
      then (inl portfolio_snapshots_pkey_violation,
            {| rows := rows t; id_seq := id |})
      else (inr id,
            {| rows := rows t ++ [ {| p_id := id; p_cash := cash;
                                      p_positions_value := positions;
                                      p_total_value := total;
                                      p_created_at := Some now |} ];
               id_seq := id |})
  end end end.

Inductive reachable : Table -> Prop :=
| reach_empty : reachable empty_table
| reach_insert now ins t :
    reachable t -> reachable (snd (insert_snapshot now ins t)).

(** An amount, when there is one, is below [bound] in absolute value. *)
Definition below (bound : Q) (v : option Q) : Prop :=
  match v with
  | None => True
  | Some q => (- bound < q)%Q ∧ (q < bound)%Q
  end.

(** A stored amount is a whole number of cents within half a cent of
    the amount given; no amount is stored where none was given. *)
Definition stored_as (given stored : option Q) : Prop :=
  match given with
  | None => stored = None
  | Some q =>
    exists n : Z, stored = Some (n # 100)
                  ∧ (q - (1 # 200) <= n # 100)%Q
                  ∧ (n # 100 <= q + (1 # 200))%Q
  end.

End Snapshots.

(* ===================================================================== *)
(** ** The dashboard: helpers and widgets *)
(* ===================================================================== *)

Module View.
Import Json.
Local Open Scope Z_scope.

(** [fmtSeconds(s)] on a whole number of seconds; [None] is null or
    undefined.  [Math.floor(s / 60)] rounds down, [%] takes the sign of
    its left operand.  The source computes in binary64: the quotient,
    the rest and the digits printed are those of the integers as long
    as [s] is below [2 ^ 53] in absolute value, the range this model
    is for. *)
Definition fmtSeconds (s : option Z) : string :=
  match s with
  | None => "—"
  | Some s =>
    if s <? 60 then pretty s +:+ "s"
    else pretty (s / 60) +:+ "m " +:+ pretty (Z.rem s 60) +:+ "s"
  end.

(** [ago(iso)] at the instant [now]; both instants in milliseconds,
    [None] for a string that is no date, whose time value is NaN. *)
Definition ago (now : Z) (t : option Z) : string :=
  match t with
  | None => "NaNh ago"
  | Some t =>
    let s := (now - t) / 1000 in
    if s <? 60 then pretty s +:+ "s ago"
    else if s <? 3600 then pretty (s / 60) +:+ "m ago"
    else pretty (s / 3600) +:+ "h ago"
  end.

(** One entry of the table of [ActionBadge]. *)
Record BadgeStyle := {
  badge_color : string;
  badge_bg : string;
  badge_icon : string;
}.

Definition buy_style : BadgeStyle :=
  {| badge_color := "var(--green)"; badge_bg := "var(--green-bg)";
     badge_icon := "CheckCircle" |}.

Definition skip_style : BadgeStyle :=
  {| badge_color := "var(--text3)"; badge_bg := "transparent";
     badge_icon := "Clock" |}.

Definition error_style : BadgeStyle :=
  {| badge_color := "var(--red)"; badge_bg := "var(--red-bg)";
     badge_icon := "AlertTriangle" |}.

(** The own properties of [map]. *)
Definition badge_map : gmap string BadgeStyle :=
  list_to_map [("buy", buy_style); ("skip", skip_style); ("error", error_style)].

(** What [map] inherits from [Object.prototype]: each of these names
    reads a function or an object, which is truthy and has no [color],
    [bg] or [icon]. *)
Definition inherited_keys : list string :=
  ["constructor"; "hasOwnProperty"; "isPrototypeOf"; "propertyIsEnumerable";
   "toLocaleString"; "toString"; "valueOf"; "__proto__";
   "__defineGetter__"; "__defineSetter__"; "__lookupGetter__";
   "__lookupSetter__"].

(** What [ActionBadge] renders: the style it found ([None] where the
    value found has none of the three fields) and the action it prints
    in upper case. *)
Record BadgeView := {
  badge_style : option BadgeStyle;
  badge_label : string;
}.

(** [map[action] || map.skip], then the label. *)
Definition ActionBadge (action : string) : BadgeView :=
  {| badge_style :=
       match badge_map !! action with
       | Some s => Some s
       | None =>
         if bool_decide (action ∈ inherited_keys) then None
         else Some skip_style
       end;
     badge_label := action |}.

End View.

(* ===================================================================== *)
(** ** The dashboard: the forms of the strategies tab *)
(* ===================================================================== *)

Module Forms.
Import Json Js Api.
Local Open Scope Z_scope.

(** The value whose string form is [e.message]. *)
Definition message (e : Exn) : JSON :=
  match e with
  | Error arg => arg
  | TypeError m | SyntaxError m | FetchFailed m => JStr m
  end.

(** [await client.name(args)] *)
Definition await_call (client : gmap string Method) (fetch : Fetch)
    (name : string) (args : list Arg) : Completion JSON :=
  p ← call client fetch name args; p.

(** The strategy a card shows. *)
Record Strategy := {
  id : Z;
  name : string;
  enabled : bool;
  has_class : bool;
  config : JSON;
}.

(** The state cells of [StrategyCard]. *)
Record CardState := {
  expanded : bool;
  editing : bool;
  configText : string;
  saving : bool;
  err : option JSON;
}.

(** [toggle]: the second component tells whether [onUpdate] was
    called. *)
Definition toggle (fetch : Fetch) (s : Strategy) (c : CardState)
  : CardState * bool :=
  match await_call api fetch "updateStrategy"
          [ANum (id s); ADoc (JObj {["enabled" := JBool (negb (enabled s))]})]
  with
  | Return _ =>
    ({| expanded := expanded c; editing := editing c;
        configText := configText c; saving := false; err := err c |}, true)
  | Throw e =>
    ({| expanded := expanded c; editing := editing c;
        configText := configText c; saving := false;
        err := Some (message e) |}, false)
  end.

(** [saveConfig], with [parse] for [JSON.parse]. *)
Definition saveConfig (parse : string -> Completion JSON) (fetch : Fetch)
    (s : Strategy) (c : CardState) : CardState * bool :=
  match doc ← parse (configText c);
        await_call api fetch "updateStrategy"
          [ANum (id s); ADoc (JObj {["config" := doc]})]
  with
  | Return _ =>
    ({| expanded := expanded c; editing := false;
        configText := configText c; saving := false; err := None |}, true)
  | Throw e =>
    ({| expanded := expanded c; editing := editing c;
        configText := configText c; saving := false;
        err := Some (message e) |}, false)
  end.

(** The fields of [NewStrategyForm]. *)
Record Form := {
  form_name : string;
  form_description : string;
  form_config : string;
}.

Record FormState := {
  show : bool;
  form : Form;
  form_saving : bool;
  form_err : option JSON;
}.

(** [{ ...form, config: doc }] *)
Definition create_body (f : Form) (doc : JSON) : JSON :=
  JObj (<["config" := doc]>
          (list_to_map [("name", JStr (form_name f));
                        ("description", JStr (form_description f));
                        ("config", JStr (form_config f))])).

(** [submit]: the second component tells whether [onCreated] was
    called. *)
Definition submit (parse : string -> Completion JSON) (fetch : Fetch)
    (c : FormState) : FormState * bool :=
  match doc ← parse (form_config (form c));
        await_call api fetch "createStrategy" [ADoc (create_body (form c) doc)]
  with
  | Return _ =>
    ({| show := false; form := form c; form_saving := false;
        form_err := None |}, true)
  | Throw e =>
    ({| show := show c; form := form c; form_saving := false;
        form_err := Some (message e) |}, false)
  end.

(** The one request each handler has [fetch] make. *)
Definition toggle_request (s : Strategy) : Request :=
  {| url := "/api/strategies/" +:+ pretty (id s);
     headers := [("Content-Type", "application/json")];
     method := Some "PATCH";
     req_body := Some (JObj {["enabled" := JBool (negb (enabled s))]}) |}.

Definition save_request (s : Strategy) (doc : JSON) : Request :=
  {| url := "/api/strategies/" +:+ pretty (id s);
     headers := [("Content-Type", "application/json")];
     method := Some "PATCH";
     req_body := Some (JObj {["config" := doc]}) |}.

Definition create_request (f : Form) (doc : JSON) : Request :=
  {| url := "/api/strategies";
     headers := [("Content-Type", "application/json")];
     method := Some "POST";
     req_body := Some (create_body f doc) |}.

(** The server took the request: it answered with an ok status and a
    JSON body. *)
Definition accepted (fetch : Fetch) (r : Request) : Prop :=
  exists resp v, fetch r = Return resp ∧ ok resp = true ∧ body resp = Some v.

End Forms.

Module LogScenario.
Import Json Sql.
Local Open Scope Z_scope.

(** The record of a skip that carries an action and a reason and
    nothing else: no market was observed, no side chosen. *)
Definition skip_conditions_not_met : DecisionInsert :=
  {| ins_strategy_id := Given (Some 1);
     ins_market_ticker := Omitted;
     ins_side := Omitted;
     ins_action := Given (Some "skip");
     ins_reason := Given (Some "conditions not met");
     ins_contract_price := Omitted;
     ins_time_remaining_seconds := Omitted;
     ins_portfolio_cash := Omitted;
     ins_position_size := Omitted;
     ins_contracts := Omitted;
     ins_order_id := Omitted;
     ins_params := Omitted |}.


(** The seed row switched off and given an empty configuration. *)
Definition edited_db : Db :=
  snd (exec 5 (UpdateStrategies (λ _, true)
                 {| set_enabled := Given (Some false);
                    set_config := Given (Some empty_object) |})
         (init_db 0)).

(** The log after one buy. *)
Definition one_buy_db : Db :=
  snd (exec 7 (InsertDecision SqlScenario.buy_yes) (init_db 0)).

End LogScenario.

Module SnapshotScenario.
Import Sql Snapshots.

(** A snapshot taken while the positions could not be valued. *)
Definition cash_only : SnapshotInsert :=
  {| ins_cash := Given (Some 1234.567%Q);
     ins_positions_value := Given None;
     ins_total_value := Omitted |}.

End SnapshotScenario.

Module FormScenario.
Import Json Js Api Forms.
Local Open Scope Z_scope.

(** The seeded strategy as the card shows it. *)
Definition seeded_card : Strategy :=
  {| id := 1; name := "btc_15m_high_confidence"; enabled := true;
     has_class := true; config := Sql.seed_config |}.

(** A card whose configuration text has been edited into something that
    is not JSON. *)
Definition broken_edit : CardState :=
  {| expanded := true; editing := true; configText := "{ position_pct: ";
     saving := false; err := None |}.

(** A parser that takes no text at all. *)
Definition refuse_all : string -> Completion JSON :=
  λ _, Throw (SyntaxError "Unexpected end of JSON input").

(** A server that answers every request with the document [{}]. *)
Definition accept_all : Fetch :=
  λ _, Return {| status := 200; statusText := "OK";
                 body := Some (JObj ∅) |}.

End FormScenario.

Module ClientScenario.
Import Json Js Api.
Local Open Scope Z_scope.


(** A 500 answer whose body is the JSON value null. *)
Definition null_error : Response :=
  {| status := 500; statusText := "Internal Server Error";
     body := Some JNull |}.

(** A server on which only the read of the portfolio fails. *)
Definition portfolio_down : Fetch :=
  λ r, if String.eqb (url r) "/api/portfolio"
       then Return null_error
       else Return ApiScenario.empty_list.

(** Two reads for the market snapshot and the call statistics. *)
Definition market_state : Method := λ _, ("/market/state", no_opts).
Definition api_stats : Method := λ _, ("/stats/api", no_opts).

End ClientScenario.

(* ===================================================================== *)
(** * Properties of the reference strategy *)
(* ===================================================================== *)

Section StrategyFacts.
Import Json Strategy.

Lemma Qlt_bool_true (a b : Q) : Qlt_bool a b = true <-> (a < b)%Q.
Proof.
  unfold Qlt_bool. rewrite negb_true_iff. split.
  - intros Hle. apply Qnot_le_lt. intros Hba.
    apply Qle_bool_iff in Hba. congruence.
  - intros Hlt. destruct (Qle_bool b a) eqn:Hle; [|reflexivity].
    apply Qle_bool_iff in Hle. exfalso. exact (Qlt_not_le _ _ Hlt Hle).
Qed.

Lemma Qlt_bool_false (a b : Q) : Qlt_bool a b = false <-> (b <= a)%Q.
Proof.
  unfold Qlt_bool. rewrite negb_false_iff. apply Qle_bool_iff.
Qed.

(** The seed document has the shape the strategy expects. *)
Lemma parse_seed_config : parse_config Sql.seed_config = Some Scenario.seeded.
Proof. vm_compute. reflexivity. Qed.

(** The schema script leaves exactly the seed row, with the seed
    document as its configuration. *)
Lemma init_db_config (now : Z) :
  Sql.s_config <$> Sql.strategies (Sql.init_db now) = [Some Sql.seed_config].
Proof. reflexivity. Qed.

(** C1.  Under the seeded configuration (threshold 0.90, ceiling 60 s,
    position_pct 0.05), when the exchange reports an open market with 45
    seconds remaining and a yes price of 0.92, reports 1000 dollars of
    available cash and accepts the order, the evaluation returns a
    signal with action buy, side yes and a position size of 50 dollars,
    which is position_pct times cash. *)
Theorem seeded_scenario_buys_yes (ex : Exchange) (m : Market) (cash : Q) :
  find_open_market ex "KXBTC" 15%Q = OpenMarket m ->
  seconds_remaining m = 45%Z ->
  (yes_price m == 0.92)%Q ->
  get_balance ex = inr cash ->
  (cash == 1000)%Q ->
  (forall o, exists oid, place_order ex o = inr oid) ->
  let signal := evaluate_doc Sql.seed_config ex in
  action signal = Buy /\
  side signal = Some Yes /\
  exists size, positionSize signal = Some size /\
               (size == 50)%Q /\ (size == 0.05 * cash)%Q.
Proof.
  intros Hfind Hsecs Hyes Hbal Hcash Haccept signal. subst signal.
  unfold evaluate_doc. rewrite parse_seed_config.
  unfold evaluate. cbn [market_series interval_minutes Scenario.seeded].
  rewrite Hfind, Hsecs.
  cbn [max_seconds_remaining min_price_threshold position_pct Scenario.seeded].
  assert (Qlt_bool 60 (inject_Z 45) = false) as -> by reflexivity.
  assert (Qlt_bool (yes_price m) 0.90 = false) as ->.
  { apply Qlt_bool_false. rewrite Hyes. discriminate. }
  cbn [andb]. rewrite Hbal.
  assert (choose_side Scenario.seeded m = Yes) as Hside.
  { unfold choose_side. cbn [min_price_threshold Scenario.seeded].
    assert (Qle_bool 0.90 (yes_price m) = true) as ->; [|reflexivity].
    apply Qle_bool_iff. rewrite Hyes. discriminate. }
  cbv zeta. rewrite Hside.
  match goal with
  | |- context [place_order ex ?o] => destruct (Haccept o) as [oid ->]
  end.
  cbn [action side positionSize].
  split; [reflexivity|]. split; [reflexivity|].
  eexists. split; [reflexivity|].
  split; [|reflexivity]. rewrite Hcash. reflexivity.
Qed.

Lemma seeded_scenario_buys_yes_witness :
  let signal :=
    evaluate_doc Sql.seed_config
      (Scenario.exchange_with Scenario.closing_market []) in
  action signal = Buy /\
  side signal = Some Yes /\
  exists size, positionSize signal = Some size /\
               (size == 50)%Q /\ (size == 0.05 * 1000)%Q.
Proof.
  apply (seeded_scenario_buys_yes
           (Scenario.exchange_with Scenario.closing_market [])
           Scenario.closing_market 1000%Q).
  - reflexivity.
  - reflexivity.
  - reflexivity.
  - reflexivity.
  - reflexivity.
  - intros o. exists "order-1"%string. reflexivity.
Defined.

(** In the same scenario, an exchange that refuses the order turns the
    outcome into an error signal. *)
Lemma refused_order_is_error (ex : Exchange) (m : Market) (cash : Q) :
  find_open_market ex "KXBTC" 15%Q = OpenMarket m ->
  seconds_remaining m = 45%Z ->
  (yes_price m == 0.92)%Q ->
  get_balance ex = inr cash ->
  (forall o, exists e, place_order ex o = inl e) ->
  action (evaluate_doc Sql.seed_config ex) = ActError.
Proof.
  intros Hfind Hsecs Hyes Hbal Hrefuse.
  unfold evaluate_doc. rewrite parse_seed_config.
  unfold evaluate. cbn [market_series interval_minutes Scenario.seeded].
  rewrite Hfind, Hsecs.
  cbn [max_seconds_remaining min_price_threshold position_pct Scenario.seeded].
  assert (Qlt_bool 60 (inject_Z 45) = false) as -> by reflexivity.
  assert (Qlt_bool (yes_price m) 0.90 = false) as ->.
  { apply Qlt_bool_false. rewrite Hyes. discriminate. }
  cbn [andb]. rewrite Hbal. cbv zeta.
  match goal with
  | |- context [place_order ex ?o] => destruct (Hrefuse o) as [e ->]
  end.
  reflexivity.
Qed.

(** C2.  Whenever the time remaining of the observed open market exceeds
    the configured ceiling, the evaluation returns a signal with action
    skip, whatever the yes and no prices (and whatever the rest of the
    configuration and of the exchange's answers). *)
Theorem skip_when_ceiling_exceeded (cfg : Config) (ex : Exchange) (m : Market) :
  find_open_market ex (market_series cfg) (interval_minutes cfg) = OpenMarket m ->
  (max_seconds_remaining cfg < inject_Z (seconds_remaining m))%Q ->
  action (evaluate cfg ex) = Skip.
Proof.
  intros Hfind Hlate. unfold evaluate. rewrite Hfind.
  apply Qlt_bool_true in Hlate. rewrite Hlate. reflexivity.
Qed.

Lemma skip_when_ceiling_exceeded_witness :
  action (evaluate Scenario.seeded
            (Scenario.exchange_with Scenario.early_market [])) = Skip.
Proof.
  apply (skip_when_ceiling_exceeded Scenario.seeded
           (Scenario.exchange_with Scenario.early_market [])
           Scenario.early_market).
  - reflexivity.
  - vm_compute. reflexivity.
Defined.

(** The signal depends on the exchange only through the three answers
    the rule asks for. *)
Lemma evaluate_agree (cfg : Config) (ex1 ex2 : Exchange) :
  (forall series interval,
      find_open_market ex1 series interval = find_open_market ex2 series interval) ->
  get_balance ex1 = get_balance ex2 ->
  (forall o, place_order ex1 o = place_order ex2 o) ->
  evaluate cfg ex1 = evaluate cfg ex2.
Proof.
  intros Hfind Hbal Horder. unfold evaluate.
  rewrite Hfind, Hbal.
  destruct (find_open_market ex2 _ _) as [e| |m]; try reflexivity.
  destruct (Qlt_bool _ _); [reflexivity|].
  destruct (_ && _); [reflexivity|].
  destruct (get_balance ex2) as [e|cash]; [reflexivity|].
  rewrite Horder. reflexivity.
Qed.

(** What an evaluation returns, by the order it places: without an
    order the signal is no buy; a refused order is an error; an accepted
    one is a buy that carries the side, the price and the count of the
    order, and the id the exchange gave it. *)
Lemma evaluate_order (cfg : Config) (ex : Exchange) :
  match order_placed cfg ex with
  | None => action (evaluate cfg ex) ≠ Buy
  | Some o =>
    match place_order ex o with
    | inl _ => evaluate cfg ex = bare_signal ActError "order placement failed"
    | inr oid =>
      action (evaluate cfg ex) = Buy
      ∧ side (evaluate cfg ex) = Some (order_side o)
      ∧ contractPrice (evaluate cfg ex) = Some (order_price o)
      ∧ contracts (evaluate cfg ex) = Some (order_count o)
      ∧ orderId (evaluate cfg ex) = Some oid
    end
  end.
Proof.
  unfold order_placed, evaluate.
  destruct (find_open_market ex _ _) as [e| |m]; [discriminate..|].
  destruct (Qlt_bool _ _); [discriminate|].
  destruct (_ && _); [discriminate|].
  destruct (get_balance ex) as [e|cash]; [discriminate|].
  cbv zeta. destruct (place_order ex _) as [e|oid]; [reflexivity|].
  cbn. repeat split.
Qed.




End StrategyFacts.

(* ===================================================================== *)
(** * Properties of the schema and of the registry *)
(* ===================================================================== *)

Section SchemaFacts.
Import Json Sql Invariant.
Local Open Scope Z_scope.

Lemma is_null_false {A} (v : option A) : is_null v = false <-> is_Some v.
Proof. destruct v; cbn; split; intros H; eauto; try discriminate. by destruct H. Qed.


Lemma strategy_row_ok_mono (seq seq' : Z) (r : StrategyRow) :
  seq ≤ seq' -> strategy_row_ok seq r -> strategy_row_ok seq' r.
Proof. unfold strategy_row_ok. intros Hle [Hnull Hid]. split; [done | lia]. Qed.

Lemma id_taken_fresh (seq : Z) (rows : list StrategyRow) :
  Forall (strategy_row_ok seq) rows -> id_taken (seq + 1) rows = false.
Proof.
  intros Hrows. apply bool_decide_eq_false. intros Hin.
  apply list_elem_of_fmap in Hin as (r & Hid & Hr).
  rewrite Forall_forall in Hrows. destruct (Hrows r Hr) as [_ Hrange]. lia.
Qed.

Lemma first_null_column_None (rows : list StrategyRow) :
  first_null_column rows = None <->
  Forall (λ r, strategy_null_column r = None) rows.
Proof.
  induction rows as [|r rows IH]; cbn.
  - split; [constructor | done].
  - destruct (strategy_null_column r) eqn:Hr.
    + split; [done | intros H; inversion H; congruence].
    + rewrite IH. split; [by constructor | intros H; by inversion H].
Qed.

Lemma assign_where_id cond a r : s_id (assign_where cond a r) = s_id r.
Proof. unfold assign_where. by destruct (cond r). Qed.

Lemma assign_where_name cond a r : s_name (assign_where cond a r) = s_name r.
Proof. unfold assign_where. by destruct (cond r). Qed.

Lemma fmap_assign_where_ids cond a (rows : list StrategyRow) :
  s_id <$> (assign_where cond a <$> rows) = s_id <$> rows.
Proof.
  rewrite <- list_fmap_compose. apply list_fmap_ext.
  intros i r _. apply assign_where_id.
Qed.

Lemma fmap_assign_where_names cond a (rows : list StrategyRow) :
  s_name <$> (assign_where cond a <$> rows) = s_name <$> rows.
Proof.
  rewrite <- list_fmap_compose. apply list_fmap_ext.
  intros i r _. apply assign_where_name.
Qed.

Lemma check_side_holds (v : option string) :
  is_null v = false ->
  check_holds (sql_in v ["yes"; "no"]) = true ->
  v = Some "yes" ∨ v = Some "no".
Proof.
  destruct v as [s|]; [|discriminate]. intros _. cbn.
  destruct (bool_decide _) eqn:Hin; [|discriminate]. intros _.
  apply bool_decide_eq_true in Hin.
  repeat (apply elem_of_cons in Hin as [->|Hin]; [by eauto|]).
  by apply elem_of_nil in Hin.
Qed.

Lemma check_action_holds (v : option string) :
  is_null v = false ->
  check_holds (sql_in v ["buy"; "skip"; "error"]) = true ->
  v = Some "buy" ∨ v = Some "skip" ∨ v = Some "error".
Proof.
  destruct v as [s|]; [|discriminate]. intros _. cbn.
  destruct (bool_decide _) eqn:Hin; [|discriminate]. intros _.
  apply bool_decide_eq_true in Hin.
  repeat (apply elem_of_cons in Hin as [->|Hin]; [by eauto|]).
  by apply elem_of_nil in Hin.
Qed.

Lemma decision_violation_None (r : DecisionRow) (db : Db) :
  decision_violation r db = None -> decision_row_ok r.
Proof.
  unfold decision_violation, decision_row_ok.
  destruct (decision_null_column r) eqn:Hnull; [discriminate|].
  destruct (check_holds (sql_in (d_action r) _)) eqn:Haction; [|discriminate].
  destruct (check_holds (sql_in (d_side r) _)) eqn:Hside; [|discriminate].
  intros _. unfold decision_null_column in Hnull.
  destruct (is_null (d_market_ticker r)); [discriminate|].
  destruct (is_null (d_side r)) eqn:Hs; [discriminate|].
  destruct (is_null (d_action r)) eqn:Ha; [discriminate|].
  split; [reflexivity|]. split.
  - by apply check_side_holds.
  - by apply check_action_holds.
Qed.

Lemma insert_strategy_ok now dn ins db :
  db_ok db -> db_ok (snd (insert_strategy now dn ins db)).
Proof.
  intros [Hseq Hrows Hids Hnames Hdec].
  assert (Forall (strategy_row_ok (strategies_id_seq db + 1)) (strategies db))
    as Hrows'.
  { eapply Forall_impl; [exact Hrows|]. intros r.
    apply strategy_row_ok_mono. lia. }
  unfold insert_strategy.
  destruct (strategy_null_column _) eqn:Hnull.
  { cbn. split; cbn; auto with lia. }
  destruct (dn && name_taken _ _).
  { cbn. split; cbn; auto with lia. }
  rewrite (id_taken_fresh _ _ Hrows).
  destruct (name_taken _ _) eqn:Hname.
  { cbn. split; cbn; auto with lia. }
  apply bool_decide_eq_false in Hname. cbn in Hname.
  cbn. split; cbn.
  - lia.
  - apply Forall_app. split; [exact Hrows'|].
    constructor; [|constructor]. split; [exact Hnull | cbn; lia].
  - rewrite fmap_app. apply NoDup_app. split; [exact Hids|]. split.
    + intros i Hi Hnew. cbn in Hnew. apply list_elem_of_singleton in Hnew.
      apply list_elem_of_fmap in Hi as (r & -> & Hr).
      rewrite Forall_forall in Hrows. destruct (Hrows r Hr) as [_ Hrange]. lia.
    + cbn. apply NoDup_singleton.
  - rewrite fmap_app. apply NoDup_app. split; [exact Hnames|]. split.
    + intros n Hn Hnew. cbn in Hnew. apply list_elem_of_singleton in Hnew.
      subst n. contradiction.
    + cbn. apply NoDup_singleton.
  - exact Hdec.
Qed.

Lemma update_strategies_ok cond a db :
  db_ok db -> db_ok (snd (update_strategies cond a db)).
Proof.
  intros Hok. unfold update_strategies.
  destruct (first_null_column _) eqn:Hnull; [exact Hok|].
  destruct Hok as [Hseq Hrows Hids Hnames Hdec].
  apply first_null_column_None in Hnull.
  cbn. split; cbn.
  - exact Hseq.
  - rewrite Forall_fmap in Hnull |- *.
    rewrite Forall_forall in Hnull, Hrows |- *.
    intros r Hr. split; [exact (Hnull r Hr)|]. cbn.
    rewrite assign_where_id. exact (proj2 (Hrows r Hr)).
  - by rewrite fmap_assign_where_ids.
  - by rewrite fmap_assign_where_names.
  - exact Hdec.
Qed.

Lemma insert_decision_ok now ins db :
  db_ok db -> db_ok (snd (insert_decision now ins db)).
Proof.
  intros [Hseq Hrows Hids Hnames Hdec]. unfold insert_decision.
  destruct (decision_row _ _ _) as [e|r]; [by split|].
  destruct (_ <=? _); [by split|].
  destruct (decision_violation r db) eqn:Hviol; [by split|].
  split; cbn; auto.
  apply Forall_app. split; [exact Hdec|].
  constructor; [|constructor]. by eapply decision_violation_None.
Qed.

(** Every database the statements lead to satisfies the constraints of
    the schema. *)
Lemma reachable_ok (db : Db) : reachable db -> db_ok db.
Proof.
  induction 1 as [|now st db Hreach IH].
  - split; cbn; auto using NoDup_nil_2 with lia.
  - destruct st as [dn ins|cond a|ins]; cbn [exec].
    + by apply insert_strategy_ok.
    + by apply update_strategies_ok.
    + by apply insert_decision_ok.
Qed.

End SchemaFacts.

Section RegistryFacts.
Import Json Sql Registry Invariant.
Local Open Scope Z_scope.

Lemma reachable_init (now : Z) : reachable (init_db now).
Proof. apply (reach_exec now (InsertStrategy true seed) empty_db reach_empty). Qed.

(** C3, as the schema has it.  Every stored decision record carries the
    side yes or the side no; the table takes no record whose side is
    anything else, ["unknown"] and NULL included. *)
Theorem decision_side_yes_or_no (db : Db) :
  reachable db ->
  (forall r, r ∈ decisions db -> d_side r = Some "yes" ∨ d_side r = Some "no")
  ∧ (forall now ins id,
        fst (insert_decision now ins db) = inr id ->
        ins_side ins = Given (Some "yes") ∨ ins_side ins = Given (Some "no")).
Proof.
  intros Hreach. split.
  - intros r Hr. apply reachable_ok in Hreach as [_ _ _ _ Hdec].
    rewrite Forall_forall in Hdec. exact (proj1 (proj2 (Hdec r Hr))).
  - intros now ins id. unfold insert_decision.
    destruct (decision_row _ _ _) as [e|r] eqn:Hrow; [discriminate|].
    destruct (_ <=? _); [discriminate|].
    destruct (decision_violation r db) eqn:Hviol; [discriminate|]. intros _.
    apply decision_violation_None in Hviol as (_ & Hside & _).
    assert (d_side r = with_default (ins_side ins) None) as Hr.
    { unfold decision_row in Hrow.
      repeat match type of Hrow with
      | match ?x with _ => _ end = _ => destruct x; [discriminate|]
      end.
      by injection Hrow as <-. }
    rewrite Hr in Hside.
    destruct (ins_side ins) as [|[s|]]; cbn in Hside;
      destruct Hside as [H|H]; try discriminate; injection H as ->; auto.
Qed.

Lemma decision_side_yes_or_no_witness :
  Forall (λ r, d_side r = Some "yes" ∨ d_side r = Some "no")
    (decisions (snd (insert_decision 7 SqlScenario.buy_yes (init_db 0)))).
Proof.
  apply Forall_forall.
  apply (decision_side_yes_or_no
           (snd (insert_decision 7 SqlScenario.buy_yes (init_db 0)))).
  apply (reach_exec 7 (InsertDecision SqlScenario.buy_yes) (init_db 0)).
  apply (reach_exec 0 (InsertStrategy true seed) empty_db).
  apply reach_empty.
Defined.

(** The decisions table takes the record of a buy on the yes side, and
    stores its amounts at the scale of their columns. *)
Example buy_yes_accepted :
  fst (insert_decision 7 SqlScenario.buy_yes (init_db 0)) = inr 1
  ∧ d_side <$> decisions (snd (insert_decision 7 SqlScenario.buy_yes (init_db 0)))
    = [Some "yes"]
  ∧ d_contract_price
      <$> decisions (snd (insert_decision 7 SqlScenario.buy_yes (init_db 0)))
    = [Some (9200 # 10000)].
Proof. repeat split; vm_compute; reflexivity. Qed.

(** The decisions table turns down the record of a skip whose side is
    ["unknown"]: the CHECK constraint on the side fails, and nothing is
    stored. *)
Lemma unknown_side_rejected :
  fst (insert_decision 7 SqlScenario.skip_without_side (init_db 0))
    = inl (check_violation decisions_side_check)
  ∧ decisions (snd (insert_decision 7 SqlScenario.skip_without_side (init_db 0)))
    = [].
Proof. split; vm_compute; reflexivity. Qed.

(** A record without any side fares no better. *)
Lemma null_side_rejected (now : Z) (ins : DecisionInsert) (db : Db) :
  with_default (ins_side ins) None = None ->
  exists e, fst (insert_decision now ins db) = inl e.
Proof.
  intros Hnull. destruct (fst (insert_decision now ins db)) as [e|id] eqn:Hres.
  - by exists e.
  - exfalso. unfold insert_decision in Hres.
    destruct (decision_row _ _ _) as [e|r] eqn:Hrow; [discriminate|].
    destruct (_ <=? _); [discriminate|].
    destruct (decision_violation r db) eqn:Hviol; [discriminate|].
    apply decision_violation_None in Hviol as (_ & Hside & _).
    assert (d_side r = with_default (ins_side ins) None) as Hr.
    { unfold decision_row in Hrow.
      repeat match type of Hrow with
      | match ?x with _ => _ end = _ => destruct x; [discriminate|]
      end.
      by injection Hrow as <-. }
    rewrite Hr, Hnull in Hside. by destruct Hside.
Qed.


(** The seed statement does nothing where its name is stored already:
    running the schema script again leaves the rows as they are. *)
Lemma seed_conflict_does_nothing (now : Z) (db : Db) :
  Some "btc_15m_high_confidence" ∈ s_name <$> strategies db ->
  fst (insert_strategy now true seed db) = inr 0
  ∧ strategies (snd (insert_strategy now true seed db)) = strategies db.
Proof.
  intros Hin. unfold insert_strategy.
  cbn [seed ins_name ins_description ins_enabled ins_config with_default
       strategy_null_column s_name s_enabled s_config s_created_at
       s_updated_at is_null].
  assert (name_taken (Some "btc_15m_high_confidence") (strategies db) = true)
    as ->; [by apply bool_decide_eq_true | by split].
Qed.



(** The seed row, disabled through the registry; an unknown name. *)
Example update_examples :
  s_enabled <$> strategies
      (snd (update "btc_15m_high_confidence" SqlScenario.disable (init_db 0)))
    = [Some false]
  ∧ s_config <$> strategies
      (snd (update "btc_15m_high_confidence" SqlScenario.disable (init_db 0)))
    = [Some seed_config]
  ∧ fst (update "my_strategy" SqlScenario.disable (init_db 0)) = inl NotFound.
Proof. repeat split; vm_compute; reflexivity. Qed.

(** A second strategy gets the next id and the defaults. *)
Example create_example :
  fst (create 9 SqlScenario.second_strategy (init_db 0)) = inr ()
  ∧ s_id <$> strategies (snd (create 9 SqlScenario.second_strategy (init_db 0)))
    = [1; 2]
  ∧ s_enabled <$> strategies
      (snd (create 9 SqlScenario.second_strategy (init_db 0)))
    = [Some true; Some true].
Proof. repeat split; vm_compute; reflexivity. Qed.

(** What [update] does to one stored record. *)
Lemma assign_where_frame (name : string) (p : Partial) (r : StrategyRow) :
  let r' := assign_where (has_name name)
              {| set_enabled := col_of (p_enabled p);
                 set_config := col_of (p_config p) |} r in
  s_id r' = s_id r ∧ s_name r' = s_name r
  ∧ s_description r' = s_description r
  ∧ s_created_at r' = s_created_at r ∧ s_updated_at r' = s_updated_at r
  ∧ (s_name r ≠ Some name -> r' = r)
  ∧ (s_enabled r' = s_enabled r
     ∨ s_name r = Some name ∧ exists b, p_enabled p = Some b ∧ s_enabled r' = Some b)
  ∧ (s_config r' = s_config r
     ∨ s_name r = Some name ∧ exists c, p_config p = Some c ∧ s_config r' = Some c).
Proof.
  unfold assign_where, has_name. cbn zeta.
  destruct (bool_decide (s_name r = Some name)) eqn:Hname.
  - apply bool_decide_eq_true in Hname.
    repeat (split; [reflexivity|]). split; [congruence|]. cbn. split.
    + destruct (p_enabled p) as [b|]; cbn; eauto.
    + destruct (p_config p) as [c|]; cbn; eauto.
  - repeat (split; [reflexivity|]). split; by left.
Qed.

(** C7.  Whatever its outcome, [update(name, partial)] leaves every
    stored record in its place with its id, name, description and
    timestamps; a record under another name is unchanged altogether, and
    in the named record the enabled flag and the configuration either
    stay or take the value the partial gives.  The decisions and the
    sequences are untouched. *)
Theorem update_changes_flag_and_config_only (name : string) (p : Partial) (db : Db) :
  let db' := snd (update name p db) in
  length (strategies db') = length (strategies db)
  ∧ (forall i r,
        strategies db !! i = Some r ->
        exists r',
          strategies db' !! i = Some r'
          ∧ s_id r' = s_id r ∧ s_name r' = s_name r
          ∧ s_description r' = s_description r
          ∧ s_created_at r' = s_created_at r
          ∧ s_updated_at r' = s_updated_at r
          ∧ (s_name r ≠ Some name -> r' = r)
          ∧ (s_enabled r' = s_enabled r
             ∨ s_name r = Some name
               ∧ exists b, p_enabled p = Some b ∧ s_enabled r' = Some b)
          ∧ (s_config r' = s_config r
             ∨ s_name r = Some name
               ∧ exists c, p_config p = Some c ∧ s_config r' = Some c))
  ∧ decisions db' = decisions db
  ∧ strategies_id_seq db' = strategies_id_seq db
  ∧ decisions_id_seq db' = decisions_id_seq db.
Proof.
  cbn zeta. unfold update, update_strategies.
  set (a := {| set_enabled := col_of (p_enabled p);
               set_config := col_of (p_config p) |}).
  assert (forall i r, strategies db !! i = Some r ->
            exists r', strategies db !! i = Some r'
              ∧ s_id r' = s_id r ∧ s_name r' = s_name r
              ∧ s_description r' = s_description r
              ∧ s_created_at r' = s_created_at r
              ∧ s_updated_at r' = s_updated_at r
              ∧ (s_name r ≠ Some name -> r' = r)
              ∧ (s_enabled r' = s_enabled r
                 ∨ s_name r = Some name
                   ∧ exists b, p_enabled p = Some b ∧ s_enabled r' = Some b)
              ∧ (s_config r' = s_config r
                 ∨ s_name r = Some name
                   ∧ exists c, p_config p = Some c ∧ s_config r' = Some c))
    as Hsame.
  { intros i r Hr. exists r. repeat (split; [done|]). split; by left. }
  destruct (first_null_column _); [cbn; by auto|].
  destruct (Z.of_nat _); cbn [snd]; [by auto| |];
    cbn [strategies decisions strategies_id_seq decisions_id_seq];
    (split; [by rewrite length_fmap|]); (split; [|by auto]);
    intros i r Hr; exists (assign_where (has_name name) a r);
    (split; [by rewrite list_lookup_fmap, Hr | apply assign_where_frame]).
Qed.

Lemma update_changes_flag_and_config_only_witness :
  exists r',
    strategies
      (snd (update "btc_15m_high_confidence" SqlScenario.disable (init_db 0)))
      !! 0%nat = Some r'
    ∧ s_id r' = 1 ∧ s_name r' = Some "btc_15m_high_confidence".
Proof.
  destruct (proj1 (proj2 (update_changes_flag_and_config_only
                             "btc_15m_high_confidence" SqlScenario.disable
                             (init_db 0)))
              0%nat SqlScenario.seed_row eq_refl)
    as (r' & Hlookup & Hid & Hname & _).
  exists r'. split; [exact Hlookup|]. split; [exact Hid | exact Hname].
Defined.

(** X23.  The log never shows the dash for a stored decision: its side
    is rendered as yes, in green, or as no, in red. *)
Lemma stored_side_is_labelled (db : Db) :
  reachable db ->
  forall r, r ∈ decisions db ->
    Dashboard.SideIndicator (d_side r) = Dashboard.SideLabel "yes" true
    ∨ Dashboard.SideIndicator (d_side r) = Dashboard.SideLabel "no" false.
Proof.
  intros Hreach r Hr. apply reachable_ok in Hreach as [_ _ _ _ Hdec].
  rewrite Forall_forall in Hdec.
  destruct (Hdec r Hr) as (_ & [-> | ->] & _); [by left | by right].
Qed.



End RegistryFacts.

(* ===================================================================== *)
(** * Properties of the API client and of the dashboard *)
(* ===================================================================== *)

Section ClientFacts.
Import Json Js Api Dashboard.
Local Open Scope Z_scope.

Lemma req_not_ok (fetch : Fetch) (path : string) (opts : Opts) (r : Response) :
  fetch (request_of path opts) = Return r ->
  ok r = false ->
  req fetch path opts =
    (err ← catch_with (JObj {["detail" := JStr (statusText r)]}) (json r);
     d ← detail_of err;
     Throw (Error (or_else d (JStr (statusText r))))).
Proof. intros Hfetch Hok. unfold req. rewrite Hfetch. cbn. by rewrite Hok. Qed.

Lemma req_ok (fetch : Fetch) (path : string) (opts : Opts) (r : Response) :
  fetch (request_of path opts) = Return r ->
  ok r = true ->
  req fetch path opts = json r.
Proof. intros Hfetch Hok. unfold req. rewrite Hfetch. cbn. by rewrite Hok. Qed.

(** C9, as the code has it.  For a response that [fetch] delivered:
    when its status is not ok, [req] never returns a value; it throws an
    [Error] whose message is the HTTP status text when the body is not
    JSON, and, when the body is a JSON value other than null, the
    body's [detail] when that is there and truthy, the status text when
    it is missing or falsy.  When the status is ok, [req] ends as
    [r.json()] does: it returns the parsed body when the body is JSON,
    and throws otherwise. *)
Theorem req_outcome (fetch : Fetch) (path : string) (opts : Opts) (r : Response) :
  fetch (request_of path opts) = Return r ->
  (ok r = false ->
     (forall v, req fetch path opts ≠ Return v)
     ∧ (body r = None ->
          req fetch path opts = Throw (Error (JStr (statusText r))))
     ∧ (forall v d, body r = Some v -> get "detail" v = Some d ->
          truthy d = true ->
          req fetch path opts = Throw (Error d))
     ∧ (forall v, body r = Some v -> v ≠ JNull ->
          get "detail" v = None
          ∨ (exists d, get "detail" v = Some d ∧ truthy d = false) ->
          req fetch path opts = Throw (Error (JStr (statusText r)))))
  ∧ (ok r = true ->
     (forall v, body r = Some v -> req fetch path opts = Return v)
     ∧ (body r = None -> exists e, req fetch path opts = Throw e)).
Proof.
  intros Hfetch. split; intros Hok.
  - rewrite (req_not_ok _ _ _ _ Hfetch Hok). unfold json.
    split; [|split; [|split]].
    + intros v. destruct (body r) as [[]|]; cbn; try discriminate.
    + intros ->. cbn. rewrite lookup_singleton_eq. unfold or_else.
      by destruct (truthy _).
    + intros v d -> Hd Htruthy.
      destruct v; cbn in Hd |- *; try discriminate.
      rewrite Hd. cbn. by rewrite Htruthy.
    + intros v -> Hnull Hd.
      destruct v; try done; cbn;
        destruct Hd as [Hd|(d & Hd & Hfalsy)]; cbn in Hd; try discriminate;
        try reflexivity; rewrite Hd; cbn; [reflexivity|by rewrite Hfalsy].
  - rewrite (req_ok _ _ _ _ Hfetch Hok). unfold json. split.
    + by intros v ->.
    + intros ->. eauto.
Qed.

Lemma req_outcome_witness :
  req (ApiScenario.always ApiScenario.not_found) "/strategies/7" no_opts
  = Throw (Error (JStr "Strategy not found")).
Proof.
  apply (proj1 (proj2 (proj2
           (proj1 (req_outcome (ApiScenario.always ApiScenario.not_found)
                     "/strategies/7" no_opts ApiScenario.not_found eq_refl)
              eq_refl)))
           (JObj {["detail" := JStr "Strategy not found"]})
           (JStr "Strategy not found")).
  - reflexivity.
  - reflexivity.
  - reflexivity.
Defined.

(** Two responses on which [req] does not do what C9 says: one with an
    ok status and no JSON in its body, for which [req] returns no value;
    one with a status that is not ok and a [detail] that is there but
    empty, for which the message is the status text. *)
Lemma req_counterexample :
  (ok ApiScenario.no_content = true
   ∧ forall v, req (ApiScenario.always ApiScenario.no_content) "/portfolio" no_opts
               ≠ Return v)
  ∧ (ok ApiScenario.empty_detail = false
     ∧ get "detail" (JObj {["detail" := JStr ""]}) = Some (JStr "")
     ∧ req (ApiScenario.always ApiScenario.empty_detail) "/strategies" no_opts
       = Throw (Error (JStr "Bad Request"))).
Proof.
  split; [split; [reflexivity|]|split; [reflexivity|split; reflexivity]].
  intros v. vm_compute. discriminate.
Qed.

(** The requests the five reads of [api] that [refresh] uses make. *)
Example api_paths :
  portfolio [] = ("/portfolio", no_opts)
  ∧ portfolioHistory [] = ("/portfolio/history?limit=120", no_opts)
  ∧ decisions [ANum 50] = ("/decisions?limit=50", no_opts)
  ∧ decisions [ANum 50; AStr "buy"] = ("/decisions?limit=50&action=buy", no_opts)
  ∧ decisionStats [] = ("/decisions/stats", no_opts)
  ∧ strategies [] = ("/strategies", no_opts)
  ∧ updateStrategy [ANum 7; ADoc (JObj {["enabled" := JBool false]})]
    = ("/strategies/7",
       {| opt_method := Some "PATCH";
          opt_body := Some (JObj {["enabled" := JBool false]}) |}).
Proof. repeat split; vm_compute; reflexivity. Qed.

(** With a client that does have the two reads, a run of [refresh]
    against a server that answers every request connects. *)
Lemma refresh_connects_with_complete_client (m1 m2 : Method) (now : Z)
    (a : AppState) :
  st_connected
    (refresh (ApiScenario.complete_client m1 m2)
       (ApiScenario.always ApiScenario.empty_list) now a) = true.
Proof.
  unfold refresh, fetch_all, call. vm_compute.
  destruct (m1 []) as [p1 o1]. vm_compute.
  destruct (m2 []) as [p2 o2]. reflexivity.
Qed.





(** The left fold of the source is the sum, in the order of the list,
    of what the positions add. *)
Lemma fold_exposure (ps : list Position) :
  fold_left (λ sum p, (sum + or_zero (market_exposure p) / 100)%float)
            ps 0%float
  = exposure_sum ps.
Proof.
  unfold exposure_sum. rewrite <- fold_left_rev_right.
  induction (rev ps) as [|p earlier IH]; [reflexivity|].
  cbn [fold_right exposure_sum_rev]. rewrite IH. f_equal.
  unfold or_zero, exposure_dollars.
  destruct (market_exposure p) as [e|]; [|by vm_compute].
  destruct (is_zero e || is_nan e); [by vm_compute|reflexivity].
Qed.

(** C10.  Whatever the portfolio read returned: cash is the balance
    the exchange reports divided by 100, and null when it reports
    none; the positions value is the sum, in the order of the list, of
    the exposures of the open positions divided by 100; the total is
    cash plus that sum, and null when there is no cash.  The numbers
    and the operations are binary64. *)
Theorem portfolio_figures (portfolio : option Portfolio) :
  cash portfolio
  = (λ b, (b / 100)%float) <$> ((portfolio ≫= p_balance) ≫= balance)
  ∧ posValue portfolio = exposure_sum (default [] (portfolio ≫= p_positions))
  ∧ totalValue portfolio
    = (λ b, (b / 100 + exposure_sum (default [] (portfolio ≫= p_positions)))%float)
      <$> ((portfolio ≫= p_balance) ≫= balance).
Proof.
  assert (posValue portfolio
          = exposure_sum (default [] (portfolio ≫= p_positions))) as Hpos.
  { unfold posValue, positions. apply fold_exposure. }
  split; [|split].
  - unfold cash. by destruct (_ ≫= _).
  - exact Hpos.
  - unfold totalValue, cash. rewrite Hpos.
    by destruct ((portfolio ≫= p_balance) ≫= balance).
Qed.

(** A balance of 123456 cents with exposures of ten cents, twenty
    cents and none: the positions value is the binary64 sum
    [0.1 + 0.2 + 0], that is [0x1.3333333333334p-2], one unit in the
    last place above the binary64 number nearest to [0.3]. *)
Lemma portfolio_figures_witness :
  cash (Some ApiScenario.three_positions) = Some (123456 / 100)%float
  ∧ posValue (Some ApiScenario.three_positions) = 0x1.3333333333334p-2%float
  ∧ totalValue (Some ApiScenario.three_positions)
    = Some (123456 / 100 + 0x1.3333333333334p-2)%float.
Proof.
  destruct (portfolio_figures (Some ApiScenario.three_positions))
    as (Hcash & Hpos & Htotal).
  rewrite Hcash, Hpos, Htotal. repeat split.
Defined.

(** Without a portfolio, or without a balance in it, there is no cash
    and no total, and the positions value is zero. *)
Example portfolio_figures_example :
  cash None = None ∧ totalValue None = None ∧ posValue None = 0%float
  ∧ cash (Some {| p_balance := None; p_positions := None |}) = None
  ∧ posValue (Some {| p_balance := None; p_positions := None |}) = 0%float.
Proof. repeat split. Qed.

End ClientFacts.

Section NumericFacts.
Import Json Sql.
Local Open Scope Z_scope.

(** Rounding moves a value by at most one half. *)
Lemma round_half_away_near (q : Q) :
  (inject_Z (round_half_away q) - (1 # 2) <= q)%Q
  ∧ (q <= inject_Z (round_half_away q) + (1 # 2))%Q.
Proof.
  destruct q as [a d]. unfold round_half_away. cbn [Qnum Qden].
  assert (0 < Z.pos d) as Hd by lia.
  destruct (0 <=? a) eqn:Ha.
  - pose proof (Z.div_mod (2 * a + Z.pos d) (2 * Z.pos d) ltac:(lia)) as Hdiv.
    pose proof (Z.mod_pos_bound (2 * a + Z.pos d) (2 * Z.pos d) ltac:(lia)) as Hmod.
    set (n := (2 * a + Z.pos d) / (2 * Z.pos d)) in *.
    unfold Qle, Qminus, Qplus, Qopp, inject_Z. cbn. split; nia.
  - pose proof (Z.div_mod (2 * - a + Z.pos d) (2 * Z.pos d) ltac:(lia)) as Hdiv.
    pose proof (Z.mod_pos_bound (2 * - a + Z.pos d) (2 * Z.pos d) ltac:(lia)) as Hmod.
    set (n := (2 * - a + Z.pos d) / (2 * Z.pos d)) in *.
    unfold Qle, Qminus, Qplus, Qopp, inject_Z. cbn. split; nia.
Qed.

Lemma pow10_pos (s : Z) : 0 <= s -> 0 < 10 ^ s.
Proof. intros Hs. apply Z.pow_pos_nonneg; lia. Qed.

(** A value that fits NUMERIC(p,s) is stored as a multiple of 10^-s,
    within half of 10^-s of the value given. *)
Lemma as_numeric_near (p s : Z) (column : string) (q q' : Q) :
  0 <= s ->
  as_numeric p s column (Some q) = inr (Some q') ->
  exists n : Z,
    q' = (n # Z.to_pos (10 ^ s))
    ∧ Z.abs n < 10 ^ p
    ∧ (q - (1 # 2) / inject_Z (10 ^ s) <= q')%Q
    ∧ (q' <= q + (1 # 2) / inject_Z (10 ^ s))%Q.
Proof.
  intros Hs. unfold as_numeric.
  set (scale := inject_Z (10 ^ s)).
  destruct (Z.abs _ <? 10 ^ p) eqn:Hfits; [|discriminate].
  intros Heq. injection Heq as <-.
  exists (round_half_away (q * scale)).
  apply Z.ltb_lt in Hfits. split; [reflexivity|]. split; [exact Hfits|].
  destruct (round_half_away_near (q * scale)) as [Hlo Hhi].
  set (n := round_half_away (q * scale)) in *.
  pose proof (pow10_pos s Hs) as Hpow.
  assert (0 < scale)%Q as Hscale.
  { unfold scale, Qlt, inject_Z. cbn. lia. }
  assert ((n # Z.to_pos (10 ^ s)) == inject_Z n / scale)%Q as Hn.
  { unfold scale. rewrite (Qmake_Qdiv n (Z.to_pos (10 ^ s))).
    rewrite Z2Pos.id by lia. reflexivity. }
  assert (~ scale == 0)%Q as Hnz.
  { intros H. rewrite H in Hscale. by apply Qlt_irrefl in Hscale. }
  rewrite Hn. split.
  - apply Qle_shift_div_l; [exact Hscale|].
    assert ((q - (1 # 2) / scale) * scale == q * scale - (1 # 2))%Q as ->
      by (field; exact Hnz).
    lra.
  - apply Qle_shift_div_r; [exact Hscale|].
    assert ((q + (1 # 2) / scale) * scale == q * scale + (1 # 2))%Q as ->
      by (field; exact Hnz).
    lra.
Qed.
End NumericFacts.

(* ===================================================================== *)
(** * Further properties of the schema *)
(* ===================================================================== *)

Section LogFacts.
Import Json Sql Invariant Log.
Local Open Scope Z_scope.

Lemma as_int4_inr (column : string) (v w : option Z) :
  as_int4 column v = inr w -> w = v ∧ int4_or_null v.
Proof.
  unfold as_int4, int4_ok. destruct v as [z|]; [|by intros [= <-]].
  destruct (_ && _) eqn:Hrange; [|discriminate]. intros [= <-].
  apply andb_true_iff in Hrange as [Hlo Hhi]. cbn. split; [done|]. lia.
Qed.

(** The row [decision_row] builds, column by column. *)
Lemma decision_row_inr (now id : Z) (ins : DecisionInsert) (r : DecisionRow) :
  decision_row now id ins = inr r ->
  d_id r = id
  ∧ d_strategy_id r = with_default (ins_strategy_id ins) None
  ∧ d_market_ticker r = with_default (ins_market_ticker ins) None
  ∧ d_side r = with_default (ins_side ins) None
  ∧ d_action r = with_default (ins_action ins) None
  ∧ d_reason r = with_default (ins_reason ins) None
  ∧ d_time_remaining_seconds r
    = with_default (ins_time_remaining_seconds ins) None
  ∧ d_contracts r = with_default (ins_contracts ins) None
  ∧ d_order_id r = with_default (ins_order_id ins) None
  ∧ d_params r = with_default (ins_params ins) (Some empty_object)
  ∧ d_created_at r = Some now
  ∧ as_numeric 10 4 "contract_price"
      (with_default (ins_contract_price ins) None) = inr (d_contract_price r)
  ∧ as_numeric 14 2 "portfolio_cash"
      (with_default (ins_portfolio_cash ins) None) = inr (d_portfolio_cash r)
  ∧ as_numeric 14 2 "position_size"
      (with_default (ins_position_size ins) None) = inr (d_position_size r)
  ∧ int4_or_null (d_strategy_id r)
  ∧ int4_or_null (d_time_remaining_seconds r)
  ∧ int4_or_null (d_contracts r).
Proof.
  unfold decision_row.
  destruct (as_int4 "strategy_id" _) as [|sid] eqn:Hsid; [discriminate|].
  destruct (as_numeric 10 4 _ _) as [|price] eqn:Hprice; [discriminate|].
  destruct (as_int4 "time_remaining_seconds" _) as [|secs] eqn:Hsecs;
    [discriminate|].
  destruct (as_numeric 14 2 "portfolio_cash" _) as [|cash] eqn:Hcash;
    [discriminate|].
  destruct (as_numeric 14 2 "position_size" _) as [|size] eqn:Hsize;
    [discriminate|].
  destruct (as_int4 "contracts" _) as [|count] eqn:Hcount; [discriminate|].
  intros [= <-]. cbn.
  apply as_int4_inr in Hsid as [-> Hsid], Hsecs as [-> Hsecs],
    Hcount as [-> Hcount].
  repeat split; try done; lia.
Qed.

(** What a statement that goes through, or fails, does to the log. *)
Lemma insert_decision_cases (now : Z) (ins : DecisionInsert) (db : Db) :
  (exists e, fst (insert_decision now ins db) = inl e
             ∧ decisions (snd (insert_decision now ins db)) = decisions db)
  ∨ (exists r, fst (insert_decision now ins db) = inr (decisions_id_seq db + 1)
               ∧ decisions (snd (insert_decision now ins db))
                 = decisions db ++ [r]
               ∧ decision_row now (decisions_id_seq db + 1) ins = inr r
               ∧ decision_violation r db = None).
Proof.
  unfold insert_decision.
  destruct (decision_row _ _ _) as [e|r] eqn:Hrow; [left; by exists e|].
  destruct (_ <=? _); [left; by eexists|].
  destruct (decision_violation r db) as [e|] eqn:Hviol; [left; by exists e|].
  right. by exists r.
Qed.

Lemma insert_decision_strategies (now : Z) (ins : DecisionInsert) (db : Db) :
  strategies (snd (insert_decision now ins db)) = strategies db
  ∧ (decisions_id_seq db
     ≤ decisions_id_seq (snd (insert_decision now ins db))
     ≤ decisions_id_seq db + 1)
  ∧ (forall id, fst (insert_decision now ins db) = inr id ->
                decisions_id_seq (snd (insert_decision now ins db))
                = decisions_id_seq db + 1).
Proof.
  unfold insert_decision.
  destruct (decision_row _ _ _) as [e|r]; [cbn; repeat split; [lia..|done]|].
  destruct (_ <=? _); [cbn; repeat split; [lia..|done]|].
  destruct (decision_violation r db); cbn; repeat split; lia || done.
Qed.

Lemma insert_strategy_cases (now : Z) (dn : bool) (ins : StrategyInsert)
    (db : Db) :
  decisions (snd (insert_strategy now dn ins db)) = decisions db
  ∧ decisions_id_seq (snd (insert_strategy now dn ins db)) = decisions_id_seq db
  ∧ ((exists res, fst (insert_strategy now dn ins db) = res
                  ∧ res ≠ inr 1
                  ∧ strategies (snd (insert_strategy now dn ins db))
                    = strategies db)
     ∨ (exists r, fst (insert_strategy now dn ins db) = inr 1
                  ∧ strategies (snd (insert_strategy now dn ins db))
                    = strategies db ++ [r])).
Proof.
  unfold insert_strategy.
  destruct (strategy_null_column _);
    [split; [done|]; split; [done|]; left; eexists; by repeat split|].
  destruct (dn && _);
    [split; [done|]; split; [done|]; left; eexists; by repeat split|].
  destruct (id_taken _ _);
    [split; [done|]; split; [done|]; left; eexists; by repeat split|].
  destruct (name_taken _ _);
    [split; [done|]; split; [done|]; left; eexists; by repeat split|].
  split; [done|]. split; [done|]. right. by eexists.
Qed.

Lemma update_strategies_cases (cond : StrategyRow -> bool)
    (a : StrategyAssign) (db : Db) :
  decisions (snd (update_strategies cond a db)) = decisions db
  ∧ decisions_id_seq (snd (update_strategies cond a db)) = decisions_id_seq db
  ∧ s_id <$> strategies (snd (update_strategies cond a db))
    = s_id <$> strategies db
  ∧ s_name <$> strategies (snd (update_strategies cond a db))
    = s_name <$> strategies db
  ∧ ((exists e, fst (update_strategies cond a db) = inl e)
     -> snd (update_strategies cond a db) = db).
Proof.
  unfold update_strategies.
  destruct (first_null_column _); cbn.
  - by repeat split.
  - rewrite fmap_assign_where_ids, fmap_assign_where_names.
    repeat split; try done. by intros [e ?].
Qed.

Lemma insert_strategy_log_ok now dn ins db :
  log_ok db -> log_ok (snd (insert_strategy now dn ins db)).
Proof.
  intros [Hseq Hbound Hsorted Hrefs Hints].
  destruct (insert_strategy_cases now dn ins db) as (Hdec & Hdseq & Hrows).
  split; rewrite ?Hdec, ?Hdseq; try done.
  eapply Forall_impl; [exact Hrefs|]. intros r Hr sid Hsid.
  specialize (Hr sid Hsid).
  destruct Hrows as [(res & _ & _ & ->)|(row & _ & ->)]; [done|].
  rewrite fmap_app. apply elem_of_app. by left.
Qed.

Lemma update_strategies_log_ok cond a db :
  log_ok db -> log_ok (snd (update_strategies cond a db)).
Proof.
  intros [Hseq Hbound Hsorted Hrefs Hints].
  destruct (update_strategies_cases cond a db) as (Hdec & Hdseq & Hids & _).
  split; rewrite ?Hdec, ?Hdseq, ?Hids; done.
Qed.

Lemma insert_decision_log_ok now ins db :
  log_ok db -> log_ok (snd (insert_decision now ins db)).
Proof.
  intros [Hseq Hbound Hsorted Hrefs Hints].
  destruct (insert_decision_strategies now ins db)
    as (Hstrat & Hdrawn & Hdseq).
  assert (Forall (λ r, 0 < d_id r
                       ≤ decisions_id_seq (snd (insert_decision now ins db)))
            (decisions db))
    as Hbound'.
  { eapply Forall_impl; [exact Hbound|]. cbn. intros r. lia. }
  destruct (insert_decision_cases now ins db)
    as [(e & _ & Hdec)|(r & Hres & Hdec & Hrow & Hviol)];
    [|specialize (Hdseq _ Hres); rewrite Hdseq in Hbound'];
    split; rewrite ?Hdec, ?Hdseq, ?Hstrat; try done; try lia.
  - apply decision_row_inr in Hrow as (Hid & _).
    apply Forall_app. split; [done|]. constructor; [lia | constructor].
  - apply decision_row_inr in Hrow as (Hid & _).
    intros i j ri rj Hij Hi Hj.
    apply lookup_lt_Some in Hj as Hjlen. rewrite length_app in Hjlen.
    cbn in Hjlen.
    rewrite lookup_app_l in Hi by lia.
    destruct (decide (j < length (decisions db))%nat) as [Hlt|Hge].
    + rewrite lookup_app_l in Hj by lia. exact (Hsorted i j ri rj Hij Hi Hj).
    + rewrite lookup_app_r in Hj by lia.
      replace (j - length (decisions db))%nat with 0%nat in Hj by lia.
      injection Hj as <-.
      rewrite Forall_forall in Hbound.
      assert (ri ∈ decisions db) as Hri by (by eapply list_elem_of_lookup_2).
      specialize (Hbound ri Hri). cbn in Hbound. lia.
  - apply Forall_app. split; [done|]. constructor; [|constructor].
    intros sid Hsid. unfold decision_violation in Hviol.
    destruct (decision_null_column r); [discriminate|].
    destruct (negb (check_holds (sql_in (d_action r) _))); [discriminate|].
    destruct (negb (check_holds (sql_in (d_side r) _))); [discriminate|].
    destruct (decision_id_taken _ _); [discriminate|].
    destruct (negb (strategy_exists _ _)) eqn:Hfk; [discriminate|].
    apply negb_false_iff in Hfk. rewrite Hsid in Hfk. cbn in Hfk.
    by apply bool_decide_eq_true in Hfk.
  - apply Forall_app. split; [done|]. constructor; [|constructor].
    apply decision_row_inr in Hrow. tauto.
Qed.

Lemma reachable_log_ok (db : Db) : reachable db -> log_ok db.
Proof.
  induction 1 as [|now st db Hreach IH].
  - split; cbn; try done.
  - destruct st as [dn ins|cond a|ins]; cbn [exec].
    + by apply insert_strategy_log_ok.
    + by apply update_strategies_log_ok.
    + by apply insert_decision_log_ok.
Qed.

End LogFacts.

Section SchemaExtras.
Import Json Sql Invariant Log.
Local Open Scope Z_scope.

Lemma reachable_edited : reachable LogScenario.edited_db.
Proof. apply reach_exec, reach_exec, reach_empty. Qed.

Lemma reachable_one_buy : reachable LogScenario.one_buy_db.
Proof. apply reach_exec, reach_exec, reach_empty. Qed.

(** X1.  An INSERT either appends exactly one row to its table or
    leaves both tables as they were: a strategy insert appends if and
    only if it reports one row, a decision insert if and only if it
    returns an id; neither ever touches the other table or a stored
    row. *)
Theorem inserts_append_or_change_nothing (now : Z) (db : Db) :
  (forall dn ins,
      let out := insert_strategy now dn ins db in
      decisions (snd out) = decisions db
      ∧ ((fst out = inr 1 ∧ exists r, strategies (snd out) = strategies db ++ [r])
         ∨ (fst out ≠ inr 1 ∧ strategies (snd out) = strategies db)))
  ∧ (forall ins,
        let out := insert_decision now ins db in
        strategies (snd out) = strategies db
        ∧ ((exists id r, fst out = inr id
                         ∧ decisions (snd out) = decisions db ++ [r])
           ∨ (exists e, fst out = inl e
                        ∧ decisions (snd out) = decisions db))).
Proof.
  split.
  - intros dn ins out. subst out.
    destruct (insert_strategy_cases now dn ins db) as (Hdec & _ & Hrows).
    split; [exact Hdec|].
    destruct Hrows as [(res & Hres & Hne & Hsame)|(r & Hres & Happ)].
    + right. split; [congruence | exact Hsame].
    + left. split; [exact Hres | by exists r].
  - intros ins out. subst out.
    destruct (insert_decision_strategies now ins db) as [Hstrat _].
    split; [exact Hstrat|].
    destruct (insert_decision_cases now ins db)
      as [(e & Hres & Hdec)|(r & Hres & Hdec & _)].
    + right. by exists e.
    + left. by exists (decisions_id_seq db + 1), r.
Qed.

(** X2.  In every database the statements lead to, a decision that
    names a strategy names a stored one: its strategy_id is the id of a
    row of the strategies table. *)
Theorem decision_references_stored_strategy (db : Db) :
  reachable db ->
  forall r sid,
    r ∈ decisions db -> d_strategy_id r = Some sid ->
    exists s, s ∈ strategies db ∧ s_id s = sid.
Proof.
  intros Hreach r sid Hr Hsid.
  apply reachable_log_ok in Hreach as [_ _ _ Hrefs _].
  rewrite Forall_forall in Hrefs.
  specialize (Hrefs r Hr sid Hsid).
  apply list_elem_of_fmap in Hrefs as (s & -> & Hs). by exists s.
Qed.

Lemma decision_references_stored_strategy_witness :
  Forall (λ r, exists s, s ∈ strategies LogScenario.one_buy_db
                         ∧ Some (s_id s) = d_strategy_id r)
    (decisions LogScenario.one_buy_db).
Proof.
  apply Forall_forall. intros r Hr.
  assert (d_strategy_id r = Some 1) as Hsid.
  { vm_compute in Hr. apply list_elem_of_singleton in Hr. by subst r. }
  destruct (decision_references_stored_strategy LogScenario.one_buy_db
              reachable_one_buy r 1 Hr Hsid) as (s & Hs & Hid).
  exists s. split; [exact Hs|]. by rewrite Hid, Hsid.
Defined.

(** X3.  In every database the statements lead to, the ids of the
    decision log grow along the log: a later record has a larger id, so
    no two records share one, and none exceeds the last value of the
    sequence. *)
Theorem decision_ids_increase (db : Db) :
  reachable db ->
  (forall i j ri rj,
      (i < j)%nat ->
      decisions db !! i = Some ri -> decisions db !! j = Some rj ->
      d_id ri < d_id rj)
  ∧ (forall r, r ∈ decisions db -> 0 < d_id r ≤ decisions_id_seq db).
Proof.
  intros Hreach. apply reachable_log_ok in Hreach as [_ Hbound Hsorted _ _].
  split; [exact Hsorted|]. by apply Forall_forall.
Qed.

Lemma decision_ids_increase_witness :
  Forall (λ r, 0 < d_id r ≤ decisions_id_seq LogScenario.one_buy_db)
    (decisions LogScenario.one_buy_db).
Proof.
  apply Forall_forall.
  apply (proj2 (decision_ids_increase LogScenario.one_buy_db
                  reachable_one_buy)).
Defined.

(** X4.  In every database the statements lead to, every stored
    decision has an action among buy, skip and error, has a market
    ticker, a parameter document and a creation time, and its
    strategy_id, time remaining and contract count, where given, fit a
    32-bit integer. *)
Theorem stored_decision_columns (db : Db) :
  reachable db ->
  forall r, r ∈ decisions db ->
    (d_action r = Some "buy" ∨ d_action r = Some "skip"
     ∨ d_action r = Some "error")
    ∧ is_Some (d_market_ticker r) ∧ is_Some (d_params r)
    ∧ is_Some (d_created_at r)
    ∧ int4_or_null (d_strategy_id r)
    ∧ int4_or_null (d_time_remaining_seconds r)
    ∧ int4_or_null (d_contracts r).
Proof.
  intros Hreach r Hr.
  pose proof (reachable_log_ok db Hreach) as [_ _ _ _ Hints].
  apply reachable_ok in Hreach as [_ _ _ _ Hdec].
  rewrite Forall_forall in Hdec, Hints.
  destruct (Hdec r Hr) as (Hnull & _ & Haction). specialize (Hints r Hr).
  unfold decision_null_column in Hnull.
  destruct (d_market_ticker r); [|discriminate].
  destruct (d_side r); [|discriminate].
  destruct (d_action r); [|discriminate].
  destruct (d_params r); [|discriminate].
  destruct (d_created_at r); [|discriminate].
  split; [exact Haction|]. repeat (split; [by eauto|]). exact Hints.
Qed.

Lemma stored_decision_columns_witness :
  Forall (λ r, d_action r = Some "buy" ∨ d_action r = Some "skip"
               ∨ d_action r = Some "error")
    (decisions LogScenario.one_buy_db).
Proof.
  apply Forall_forall. intros r Hr.
  apply (stored_decision_columns LogScenario.one_buy_db reachable_one_buy r Hr).
Defined.

(** X5.  A decision insert that goes through returns the next value of
    the sequence and appends one record that reads back as it was given:
    the returned id, the text and integer columns unchanged, the empty
    document for omitted parameters, the time of the insert, and a
    contract price within half of 0.0001 of the price given, a multiple
    of 0.0001. *)
Theorem insert_decision_reads_back (now id : Z) (ins : DecisionInsert) (db : Db) :
  fst (insert_decision now ins db) = inr id ->
  exists r,
    decisions (snd (insert_decision now ins db)) = decisions db ++ [r]
    ∧ id = decisions_id_seq db + 1
    ∧ d_id r = id
    ∧ d_strategy_id r = with_default (ins_strategy_id ins) None
    ∧ d_market_ticker r = with_default (ins_market_ticker ins) None
    ∧ d_side r = with_default (ins_side ins) None
    ∧ d_action r = with_default (ins_action ins) None
    ∧ d_reason r = with_default (ins_reason ins) None
    ∧ d_time_remaining_seconds r
      = with_default (ins_time_remaining_seconds ins) None
    ∧ d_contracts r = with_default (ins_contracts ins) None
    ∧ d_order_id r = with_default (ins_order_id ins) None
    ∧ d_params r = with_default (ins_params ins) (Some empty_object)
    ∧ d_created_at r = Some now
    ∧ match with_default (ins_contract_price ins) None with
      | None => d_contract_price r = None
      | Some q =>
        exists n : Z,
          d_contract_price r = Some (n # 10000)
          ∧ (q - (1 # 20000) <= n # 10000)%Q
          ∧ (n # 10000 <= q + (1 # 20000))%Q
      end.
Proof.
  intros Hres.
  destruct (insert_decision_cases now ins db)
    as [(e & He & _)|(r & Hid & Hdec & Hrow & _)]; [congruence|].
  exists r. split; [exact Hdec|].
  assert (id = decisions_id_seq db + 1) as -> by congruence.
  split; [reflexivity|].
  apply decision_row_inr in Hrow
    as (H1 & H2 & H3 & H4 & H5 & H6 & H7 & H8 & H9 & H10 & H11 & Hprice & _).
  repeat (split; [assumption|]).
  destruct (with_default (ins_contract_price ins) None) as [q|].
  - destruct (d_contract_price r) as [q'|] eqn:Hq';
      [|cbn in Hprice; by destruct (_ <? _)].
    apply as_numeric_near in Hprice as (n & -> & _ & Hlo & Hhi); [|lia].
    assert ((1 # 2) / inject_Z (10 ^ 4) == 1 # 20000)%Q as Hhalf by reflexivity.
    rewrite Hhalf in Hlo, Hhi.
    exists n. split; [reflexivity|]. split; [exact Hlo | exact Hhi].
  - cbn in Hprice. by injection Hprice as <-.
Qed.
End SchemaExtras.

Section SchemaExtras2.
Import Json Sql Invariant Log.
Local Open Scope Z_scope.

Lemma insert_decision_reads_back_witness :
  exists r,
    decisions (snd (insert_decision 7 SqlScenario.buy_yes (init_db 0))) = [r]
    ∧ d_id r = 1 ∧ d_side r = Some "yes".
Proof.
  destruct (insert_decision_reads_back 7 1 SqlScenario.buy_yes (init_db 0)
              eq_refl)
    as (r & Hdec & _ & Hid & _ & _ & Hside & _).
  exists r. split; [exact Hdec|]. split; [exact Hid | exact Hside].
Defined.

(** X6.  A decision without a market ticker, without a side or without
    an action (left out, or given as NULL) is never stored: the insert
    fails, and the log is as it was.  The record of a skip that carries
    an action and a reason only is among them. *)
Theorem decision_needs_ticker_side_action (now : Z) (ins : DecisionInsert) (db : Db) :
  with_default (ins_market_ticker ins) None = None
  ∨ with_default (ins_side ins) None = None
  ∨ with_default (ins_action ins) None = None ->
  (exists e, fst (insert_decision now ins db) = inl e)
  ∧ decisions (snd (insert_decision now ins db)) = decisions db.
Proof.
  intros Hmissing.
  destruct (insert_decision_cases now ins db)
    as [(e & Hres & Hdec)|(r & _ & _ & Hrow & Hviol)]; [by eauto|].
  exfalso. apply decision_row_inr in Hrow as (_ & _ & Ht & Hs & Ha & _).
  unfold decision_violation in Hviol.
  destruct (decision_null_column r) eqn:Hnull; [discriminate|].
  unfold decision_null_column in Hnull. rewrite Ht, Hs, Ha in Hnull.
  destruct Hmissing as [H|[H|H]]; rewrite H in Hnull; cbn in Hnull;
    repeat match type of Hnull with
    | (if is_null ?v then _ else _) = _ => destruct (is_null v)
    end; discriminate.
Qed.

Lemma decision_needs_ticker_side_action_witness :
  (exists e, fst (insert_decision 7 LogScenario.skip_conditions_not_met
                    (init_db 0)) = inl e)
  ∧ decisions (snd (insert_decision 7 LogScenario.skip_conditions_not_met
                      (init_db 0))) = decisions (init_db 0).
Proof.
  apply (decision_needs_ticker_side_action 7
           LogScenario.skip_conditions_not_met (init_db 0)).
  left. reflexivity.
Defined.

(** X7.  In every database the statements lead to whose decisions
    sequence has a value left (it is below [2 ^ 31 - 1], the last id of
    a SERIAL column), the decisions table takes every record that has a
    market ticker, the side yes or no, an action among buy, skip and
    error, no strategy or a stored one, whole numbers that fit 32 bits
    and amounts that fit their columns. *)
Theorem well_formed_decision_accepted (now : Z) (ins : DecisionInsert) (db : Db) :
  reachable db ->
  decisions_id_seq db < 2 ^ 31 - 1 ->
  is_Some (with_default (ins_market_ticker ins) None) ->
  with_default (ins_side ins) None = Some "yes"
  ∨ with_default (ins_side ins) None = Some "no" ->
  with_default (ins_action ins) None = Some "buy"
  ∨ with_default (ins_action ins) None = Some "skip"
  ∨ with_default (ins_action ins) None = Some "error" ->
  is_Some (with_default (ins_params ins) (Some empty_object)) ->
  (forall sid, with_default (ins_strategy_id ins) None = Some sid ->
               sid ∈ s_id <$> strategies db) ->
  forall r, decision_row now (decisions_id_seq db + 1) ins = inr r ->
  insert_decision now ins db
  = (inr (decisions_id_seq db + 1),
     {| strategies := strategies db;
        strategies_id_seq := strategies_id_seq db;
        decisions := decisions db ++ [r];
        decisions_id_seq := decisions_id_seq db + 1 |}).
Proof.
  intros Hreach Hseq [t Ht] Hside Haction [p Hp] Hfk r Hrow.
  apply reachable_log_ok in Hreach as [_ Hbound _ _ _].
  unfold insert_decision. rewrite Hrow.
  assert ((2 ^ 31 - 1 <=? decisions_id_seq db) = false) as ->
    by (apply Z.leb_gt; lia).
  apply decision_row_inr in Hrow
    as (Hid & Hsid & Hticker & Hs & Ha & _ & _ & _ & _ & Hparams & Hcreated & _).
  assert (decision_violation r db = None) as ->; [|reflexivity].
  unfold decision_violation, decision_null_column.
  rewrite Hticker, Ht, Hs, Ha, Hparams, Hp, Hcreated.
  assert (decision_id_taken (d_id r) (decisions db) = false) as ->.
  { apply bool_decide_eq_false. intros Hin.
    apply list_elem_of_fmap in Hin as (r' & Heq & Hr').
    rewrite Forall_forall in Hbound. specialize (Hbound r' Hr'). cbn in Hbound.
    lia. }
  assert (strategy_exists (d_strategy_id r) (strategies db) = true) as ->.
  { rewrite Hsid. destruct (with_default (ins_strategy_id ins) None) as [sid|];
      [|reflexivity].
    cbn. apply bool_decide_eq_true. by apply Hfk. }
  destruct Hside as [-> | ->], Haction as [-> | [-> | ->]]; reflexivity.
Qed.

Lemma well_formed_decision_accepted_witness :
  decisions_id_seq (init_db 0) < 2 ^ 31 - 1
  ∧ fst (insert_decision 7 SqlScenario.buy_yes (init_db 0)) = inr 1.
Proof.
  split; [reflexivity|].
  pose proof (well_formed_decision_accepted 7 SqlScenario.buy_yes (init_db 0)
                (reachable_init 0) eq_refl) as H.
  destruct (decision_row 7 (decisions_id_seq (init_db 0) + 1)
              SqlScenario.buy_yes) as [e|r] eqn:Hrow; [vm_compute in Hrow; discriminate|].
  rewrite (H ltac:(by eexists) ltac:(by left) ltac:(by left) ltac:(by eexists)
             ltac:(intros sid [= <-]; vm_compute; apply list_elem_of_here)
             r eq_refl).
  reflexivity.
Defined.





End SchemaExtras2.

Section SnapshotFacts.
Import Sql Snapshots.
Local Open Scope Z_scope.

Lemma snapshot_ids_bounded (t : Table) :
  reachable t -> Forall (λ r, p_id r ≤ id_seq t) (rows t).
Proof.
  induction 1 as [|now ins t Hreach IH]; [constructor|].
  assert (Forall (λ r, p_id r ≤ id_seq t + 1) (rows t)) as IH'.
  { eapply Forall_impl; [exact IH|]. cbn. intros r. lia. }
  unfold insert_snapshot.
  destruct (as_numeric 14 2 "cash" _); [exact IH|].
  destruct (as_numeric 14 2 "positions_value" _); [exact IH|].
  destruct (as_numeric 14 2 "total_value" _); [exact IH|].
  destruct (_ <=? _); [exact IH|].
  destruct (snapshot_id_taken _ _); [exact IH'|].
  cbn. apply Forall_app. split; [exact IH'|]. constructor; [cbn; lia|constructor].
Qed.

(** An amount below 10^11 fits NUMERIC(14,2), and is stored to the
    cent. *)
Lemma amount_fits (column : string) (v : option Q) :
  below (inject_Z (10 ^ 11)) v ->
  exists stored, as_numeric 14 2 column v = inr stored ∧ stored_as v stored.
Proof.
  destruct v as [q|]; [|intros _; by exists None].
  intros [Hlo Hhi].
  assert (Z.abs (round_half_away (q * inject_Z (10 ^ 2))) < 10 ^ 14) as Hfits.
  { destruct (round_half_away_near (q * inject_Z (10 ^ 2))) as [Hn1 Hn2].
    set (n := round_half_away (q * inject_Z (10 ^ 2))) in *.
    change (inject_Z (10 ^ 2)) with (100 # 1)%Q in Hn1, Hn2.
    change (inject_Z (10 ^ 11)) with (100000000000 # 1)%Q in Hlo, Hhi.
    assert (inject_Z n < inject_Z (10 ^ 14))%Q as Hup.
    { change (inject_Z (10 ^ 14)) with (100000000000000 # 1)%Q. lra. }
    assert (inject_Z (- 10 ^ 14) < inject_Z n)%Q as Hdown.
    { change (inject_Z (- 10 ^ 14)) with (-100000000000000 # 1)%Q. lra. }
    rewrite <- Zlt_Qlt in Hup, Hdown. lia. }
  destruct (as_numeric 14 2 column (Some q)) as [e|stored] eqn:Hnum.
  - exfalso. unfold as_numeric in Hnum.
    apply Z.ltb_lt in Hfits. rewrite Hfits in Hnum. discriminate.
  - exists stored. split; [reflexivity|].
    destruct stored as [q'|];
      [|unfold as_numeric in Hnum; by destruct (_ <? _)].
    apply as_numeric_near in Hnum as (n & -> & _ & Hnlo & Hnhi); [|lia].
    assert ((1 # 2) / inject_Z (10 ^ 2) == 1 # 200)%Q as Hhalf by reflexivity.
    rewrite Hhalf in Hnlo, Hnhi.
    exists n. split; [reflexivity|]. split; [exact Hnlo | exact Hnhi].
Qed.

(** X10.  In every state of the portfolio_snapshots table that inserts
    lead to and whose sequence has a value left (it is below
    [2 ^ 31 - 1]), a snapshot whose amounts, where given, are below
    10^11 in absolute value is stored: the insert returns the next id
    and appends one row holding each amount to the cent, within half a
    cent of the value given, and no amount where none was given; the
    table asks for no amount at all. *)
Theorem snapshot_stored_to_the_cent (now : Z) (ins : SnapshotInsert) (t : Table) :
  reachable t ->
  id_seq t < 2 ^ 31 - 1 ->
  below (inject_Z (10 ^ 11)) (with_default (ins_cash ins) None) ->
  below (inject_Z (10 ^ 11)) (with_default (ins_positions_value ins) None) ->
  below (inject_Z (10 ^ 11)) (with_default (ins_total_value ins) None) ->
  exists r,
    insert_snapshot now ins t
    = (inr (id_seq t + 1), {| rows := rows t ++ [r]; id_seq := id_seq t + 1 |})
    ∧ p_id r = id_seq t + 1
    ∧ p_created_at r = Some now
    ∧ stored_as (with_default (ins_cash ins) None) (p_cash r)
    ∧ stored_as (with_default (ins_positions_value ins) None)
        (p_positions_value r)
    ∧ stored_as (with_default (ins_total_value ins) None) (p_total_value r).
Proof.
  intros Hreach Hseq Hcash Hpos Htotal.
  apply snapshot_ids_bounded in Hreach.
  destruct (amount_fits "cash" _ Hcash) as (cash & Hc & Hcs).
  destruct (amount_fits "positions_value" _ Hpos) as (pos & Hp & Hps).
  destruct (amount_fits "total_value" _ Htotal) as (total & Ht & Hts).
  unfold insert_snapshot. rewrite Hc, Hp, Ht.
  assert ((2 ^ 31 - 1 <=? id_seq t) = false) as -> by (apply Z.leb_gt; lia).
  cbv zeta.
  assert (snapshot_id_taken (id_seq t + 1) (rows t) = false) as ->.
  { apply bool_decide_eq_false. intros Hin.
    apply list_elem_of_fmap in Hin as (r & Hid & Hr).
    rewrite Forall_forall in Hreach. specialize (Hreach r Hr). cbn in Hreach.
    lia. }
  eexists. split; [reflexivity|]. by cbn.
Qed.

Lemma snapshot_stored_to_the_cent_witness :
  exists r,
    insert_snapshot 60 SnapshotScenario.cash_only empty_table
    = (inr 1, {| rows := [r]; id_seq := 1 |})
    ∧ p_total_value r = None.
Proof.
  destruct (snapshot_stored_to_the_cent 60 SnapshotScenario.cash_only
              empty_table reach_empty)
    as (r & Hins & _ & _ & _ & _ & Htotal).
  - reflexivity.
  - vm_compute. split; reflexivity.
  - exact I.
  - exact I.
  - exists r. split; [exact Hins | exact Htotal].
Defined.

End SnapshotFacts.

Section SideExtras.
Import Json Sql.

Lemma stored_side_is_labelled_witness :
  Forall (λ r, Dashboard.SideIndicator (d_side r) = Dashboard.SideLabel "yes" true
               ∨ Dashboard.SideIndicator (d_side r)
                 = Dashboard.SideLabel "no" false)
    (decisions LogScenario.one_buy_db).
Proof.
  apply Forall_forall.
  apply (stored_side_is_labelled LogScenario.one_buy_db reachable_one_buy).
Defined.

End SideExtras.

(* ===================================================================== *)
(** * Further properties of the API client and of the dashboard *)
(* ===================================================================== *)

Section ClientExtras.
Import Json Js Api Dashboard.
Local Open Scope Z_scope.

(** When [req] returns a value. *)
Lemma req_return_inv (fetch : Fetch) (path : string) (opts : Opts) (v : JSON) :
  req fetch path opts = Return v <->
  exists r, fetch (request_of path opts) = Return r
            ∧ ok r = true ∧ body r = Some v.
Proof.
  unfold req, json. split.
  - destruct (fetch (request_of path opts)) as [r|e]; cbn; [|discriminate].
    destruct (ok r) eqn:Hok; cbn.
    + destruct (body r) as [w|] eqn:Hbody; [|discriminate]. intros [= <-].
      by exists r.
    + destruct (body r) as [[]|]; cbn; discriminate.
  - intros (r & -> & Hok & Hbody). cbn. by rewrite Hok, Hbody.
Qed.

(** X11.  [req] returns a value exactly when [fetch] delivers a
    response with a status from 200 to 299 whose body is JSON, and the
    value is that body; it throws in every other case, a failure of
    [fetch] itself included, which it passes on unchanged. *)
Theorem req_returns_only_ok_json (fetch : Fetch) (path : string) (opts : Opts) :
  (forall v,
      req fetch path opts = Return v <->
      exists r, fetch (request_of path opts) = Return r
                ∧ 200 ≤ status r ≤ 299 ∧ body r = Some v)
  ∧ (forall e, fetch (request_of path opts) = Throw e ->
               req fetch path opts = Throw e).
Proof.
  split.
  - intros v. rewrite req_return_inv. unfold ok.
    split; intros (r & Hfetch & Hok & Hbody); exists r;
      (split; [exact Hfetch|]); (split; [|exact Hbody]).
    + apply andb_true_iff in Hok as [H1 H2]. lia.
    + apply andb_true_iff. split; lia.
  - intros e He. unfold req. by rewrite He.
Qed.

Lemma req_returns_only_ok_json_witness :
  req (ApiScenario.always ApiScenario.empty_list) "/strategies" no_opts
  = Return (JArr []).
Proof.
  apply (proj1 (req_returns_only_ok_json
                  (ApiScenario.always ApiScenario.empty_list)
                  "/strategies" no_opts) (JArr [])).
  exists ApiScenario.empty_list. split; [reflexivity|].
  split; [vm_compute; split; discriminate | reflexivity].
Defined.

(** X12.  A response with a status that is not ok and the JSON value
    null as its body makes [req] throw the TypeError of reading
    [detail] of null, not an Error with the status text. *)
Theorem req_null_error_body (fetch : Fetch) (path : string) (opts : Opts)
    (r : Response) :
  fetch (request_of path opts) = Return r ->
  ok r = false ->
  body r = Some JNull ->
  req fetch path opts
  = Throw (TypeError "Cannot read properties of null (reading 'detail')").
Proof.
  intros Hfetch Hok Hbody. unfold req, json.
  rewrite Hfetch. cbn. by rewrite Hok, Hbody.
Qed.

Lemma req_null_error_body_witness :
  req (ApiScenario.always ClientScenario.null_error) "/portfolio" no_opts
  = Throw (TypeError "Cannot read properties of null (reading 'detail')").
Proof.
  apply (req_null_error_body (ApiScenario.always ClientScenario.null_error)
           "/portfolio" no_opts ClientScenario.null_error);
    reflexivity.
Defined.





(** X15.  A run of [refresh], against any client and any server, ends
    with the loading flag cleared; when it ends connected, the time of
    the last update is the time of the run; when it ends disconnected,
    it has written nothing else: the data fetched before and the time of
    the last update stand as they were. *)
Theorem refresh_keeps_data_on_failure (client : gmap string Method)
    (fetch : Fetch) (now : Z) (a : AppState) :
  let a' := refresh client fetch now a in
  st_loading a' = false
  ∧ match st_connected a' with
    | true => st_lastUpdate a' = Some now
    | false =>
      st_portfolio a' = st_portfolio a ∧ st_history a' = st_history a
      ∧ st_decisions a' = st_decisions a ∧ st_stats a' = st_stats a
      ∧ st_strategies a' = st_strategies a
      ∧ st_marketState a' = st_marketState a
      ∧ st_apiStats a' = st_apiStats a
      ∧ st_lastUpdate a' = st_lastUpdate a
    end.
Proof.
  cbn zeta. unfold refresh.
  destruct (fetch_all client fetch) as [[|p [|h [|d [|s [|st [|ms [|as_ [|]]]]]]]]|e];
    cbn; by repeat split.
Qed.

Lemma fetch_all_complete (m1 m2 : Method) (fetch : Fetch) :
  fetch_all (ApiScenario.complete_client m1 m2) fetch
  = all [catch_with JNull (req fetch "/portfolio" no_opts);
         req fetch "/portfolio/history?limit=120" no_opts;
         req fetch "/decisions?limit=50" no_opts;
         req fetch "/decisions/stats" no_opts;
         req fetch "/strategies" no_opts;
         catch_with JNull (req fetch (fst (m1 [])) (snd (m1 [])));
         catch_with JNull (req fetch (fst (m2 [])) (snd (m2 [])))].
Proof.
  unfold fetch_all.
  assert (forall name args m, api !! name = Some m ->
            name ≠ "marketState" -> name ≠ "apiStats" ->
            call (ApiScenario.complete_client m1 m2) fetch name args
            = Return (req fetch (fst (m args)) (snd (m args)))) as Hcall.
  { intros name args m Hm H1 H2. unfold call, ApiScenario.complete_client.
    fold Method. rewrite !lookup_insert_ne by done.
    match goal with
    | |- context [match ?x with _ => _ end] =>
      replace x with (Some m) by (symmetry; exact Hm)
    end.
    by destruct (m args). }
  rewrite (Hcall "portfolio" [] portfolio) by done. cbn [mbind completion_bind].
  rewrite (Hcall "portfolioHistory" [] portfolioHistory) by done.
  cbn [mbind completion_bind].
  rewrite (Hcall "decisions" [ANum 50] decisions) by done.
  cbn [mbind completion_bind].
  rewrite (Hcall "decisionStats" [] decisionStats) by done.
  cbn [mbind completion_bind].
  rewrite (Hcall "strategies" [] strategies) by done.
  cbn [mbind completion_bind].
  assert (call (ApiScenario.complete_client m1 m2) fetch "marketState" []
          = Return (req fetch (fst (m1 [])) (snd (m1 [])))) as ->.
  { unfold call, ApiScenario.complete_client. fold Method.
    rewrite lookup_insert_eq. by destruct (m1 []). }
  cbn [mbind completion_bind].
  assert (call (ApiScenario.complete_client m1 m2) fetch "apiStats" []
          = Return (req fetch (fst (m2 [])) (snd (m2 [])))) as ->.
  { unfold call, ApiScenario.complete_client. fold Method.
    rewrite lookup_insert_ne by done. rewrite lookup_insert_eq.
    by destruct (m2 []). }
  reflexivity.
Qed.

(** X16.  With a client that has the two reads the exported object
    lacks, a run of [refresh] ends connected exactly when the reads of
    the portfolio history, the decisions, the decision counts and the
    strategies all return; it then stores what they returned, and null
    for each of the portfolio, the market snapshot and the call
    statistics whose read failed. *)
Theorem refresh_connects_iff (m1 m2 : Method) (fetch : Fetch) (now : Z)
    (a : AppState) :
  let a' := refresh (ApiScenario.complete_client m1 m2) fetch now a in
  let or_null p := match p with Return v => v | Throw _ => JNull end in
  (st_connected a' = true <->
   exists h d s st,
     req fetch "/portfolio/history?limit=120" no_opts = Return h
     ∧ req fetch "/decisions?limit=50" no_opts = Return d
     ∧ req fetch "/decisions/stats" no_opts = Return s
     ∧ req fetch "/strategies" no_opts = Return st)
  ∧ (forall h d s st,
        req fetch "/portfolio/history?limit=120" no_opts = Return h ->
        req fetch "/decisions?limit=50" no_opts = Return d ->
        req fetch "/decisions/stats" no_opts = Return s ->
        req fetch "/strategies" no_opts = Return st ->
        a' = {| st_portfolio := or_null (req fetch "/portfolio" no_opts);
                st_history := h; st_decisions := d; st_stats := s;
                st_strategies := st;
                st_marketState :=
                  or_null (req fetch (fst (m1 [])) (snd (m1 [])));
                st_apiStats :=
                  or_null (req fetch (fst (m2 [])) (snd (m2 [])));
                st_loading := false; st_lastUpdate := Some now;
                st_connected := true |}).
Proof.
  cbn zeta. unfold refresh. rewrite fetch_all_complete.
  destruct (req fetch "/portfolio" no_opts) as [p|ep];
    destruct (req fetch "/portfolio/history?limit=120" no_opts) as [h|eh];
    destruct (req fetch "/decisions?limit=50" no_opts) as [d|ed];
    destruct (req fetch "/decisions/stats" no_opts) as [s|es];
    destruct (req fetch "/strategies" no_opts) as [st|est];
    destruct (req fetch (fst (m1 [])) (snd (m1 []))) as [ms|ems];
    destruct (req fetch (fst (m2 [])) (snd (m2 []))) as [as_|eas];
    cbn; (split; [split|]);
    try (intros Hc; discriminate Hc);
    try (intros (? & ? & ? & ? & H1 & H2 & H3 & H4); discriminate);
    try (intros ? ? ? ? H1 H2 H3 H4; discriminate);
    try (intros _; by eauto 10);
    try (intros ? ? ? ? [= <-] [= <-] [= <-] [= <-]; reflexivity).
Qed.

Lemma refresh_connects_iff_witness :
  st_portfolio
    (refresh (ApiScenario.complete_client ClientScenario.market_state
                ClientScenario.api_stats)
       ClientScenario.portfolio_down 10 initial) = JNull
  ∧ st_connected
      (refresh (ApiScenario.complete_client ClientScenario.market_state
                  ClientScenario.api_stats)
         ClientScenario.portfolio_down 10 initial) = true.
Proof.
  rewrite (proj2 (refresh_connects_iff ClientScenario.market_state
                    ClientScenario.api_stats ClientScenario.portfolio_down
                    10 initial)
             (JArr []) (JArr []) (JArr []) (JArr [])
             eq_refl eq_refl eq_refl eq_refl).
  split; reflexivity.
Defined.

End ClientExtras.

Section ViewExtras.
Import Json Js Api View Forms.
Local Open Scope Z_scope.

(** X17.  On a whole number of seconds that binary64 holds exactly
    (below [2 ^ 53] in absolute value): from one minute on,
    [fmtSeconds] splits the seconds into whole minutes, at least one,
    and a rest from 0 to 59 that add up to the value given; below one
    minute, negative values included, it prints the value itself; and
    a dash for no value. *)
Theorem fmtSeconds_splits (s : Z) :
  - 2 ^ 53 < s < 2 ^ 53 ->
  fmtSeconds None = "—"
  ∧ (s < 60 -> fmtSeconds (Some s) = pretty s +:+ "s")
  ∧ (60 ≤ s ->
     exists m r,
       fmtSeconds (Some s) = pretty m +:+ "m " +:+ pretty r +:+ "s"
       ∧ s = 60 * m + r ∧ 1 ≤ m ∧ 0 ≤ r < 60).
Proof.
  intros _. split; [reflexivity|]. unfold fmtSeconds. split.
  - intros Hs. apply Z.ltb_lt in Hs. by rewrite Hs.
  - intros Hs. apply Z.ltb_ge in Hs as Hs'. rewrite Hs'.
    exists (s / 60), (Z.rem s 60). split; [reflexivity|].
    rewrite Z.rem_mod_nonneg by lia.
    pose proof (Z.div_mod s 60 ltac:(lia)) as Hdiv.
    pose proof (Z.mod_pos_bound s 60 ltac:(lia)) as Hmod.
    split; [lia|]. split; [|lia].
    apply Z.div_le_lower_bound; lia.
Qed.

Lemma fmtSeconds_splits_witness :
  exists m r,
    fmtSeconds (Some 125) = pretty m +:+ "m " +:+ pretty r +:+ "s"
    ∧ 125 = 60 * m + r ∧ 1 ≤ m ∧ 0 ≤ r < 60.
Proof.
  apply (proj2 (proj2 (fmtSeconds_splits 125 ltac:(lia)))). lia.
Defined.

(** X18.  For an instant [t] that is a date, [ago] prints the time
    elapsed since [t], rounded down, in seconds below one minute (the
    future included, as a negative number of seconds), in minutes below
    one hour, and in hours from there on, however many they are. *)
Theorem ago_rounds_down (now t : Z) :
  exists n unit suffix,
    ago now (Some t) = pretty n +:+ suffix
    ∧ n * unit ≤ now - t < (n + 1) * unit
    ∧ (now - t < 60000 ∧ unit = 1000 ∧ suffix = "s ago"
       ∨ 60000 ≤ now - t < 3600000 ∧ unit = 60000 ∧ suffix = "m ago"
       ∨ 3600000 ≤ now - t ∧ unit = 3600000 ∧ suffix = "h ago").
Proof.
  unfold ago. cbn zeta.
  pose proof (Z.div_mod (now - t) 1000 ltac:(lia)) as Hdiv.
  pose proof (Z.mod_pos_bound (now - t) 1000 ltac:(lia)) as Hmod.
  set (s := (now - t) / 1000) in *.
  destruct (s <? 60) eqn:H60.
  - apply Z.ltb_lt in H60.
    exists s, 1000, "s ago". split; [reflexivity|]. split; [lia|].
    left. repeat split; lia.
  - apply Z.ltb_ge in H60. destruct (s <? 3600) eqn:H3600.
    + apply Z.ltb_lt in H3600.
      pose proof (Z.div_mod s 60 ltac:(lia)) as Hdiv'.
      pose proof (Z.mod_pos_bound s 60 ltac:(lia)) as Hmod'.
      exists (s / 60), 60000, "m ago". split; [reflexivity|]. split; [lia|].
      right. left. repeat split; lia.
    + apply Z.ltb_ge in H3600.
      pose proof (Z.div_mod s 3600 ltac:(lia)) as Hdiv'.
      pose proof (Z.mod_pos_bound s 3600 ltac:(lia)) as Hmod'.
      exists (s / 3600), 3600000, "h ago". split; [reflexivity|]. split; [lia|].
      right. right. repeat split; lia.
Qed.

(** X19.  For every stored decision, [ActionBadge] finds the style of
    the decision's own action: green for a buy, grey for a skip, red for
    an error; neither the fallback to the style of a skip nor a value
    inherited from [Object.prototype] ever shows for a stored record. *)
Theorem stored_action_has_own_badge (db : Sql.Db) :
  Sql.reachable db ->
  forall r, r ∈ Sql.decisions db ->
    exists a,
      Sql.d_action r = Some a
      ∧ badge_label (ActionBadge a) = a
      ∧ (a = "buy" ∧ badge_style (ActionBadge a) = Some buy_style
         ∨ a = "skip" ∧ badge_style (ActionBadge a) = Some skip_style
         ∨ a = "error" ∧ badge_style (ActionBadge a) = Some error_style).
Proof.
  intros Hreach r Hr. apply reachable_ok in Hreach as [_ _ _ _ Hdec].
  rewrite Forall_forall in Hdec.
  destruct (Hdec r Hr) as (_ & _ & [Ha | [Ha | Ha]]); rewrite Ha;
    eexists; (split; [reflexivity|]); (split; [reflexivity|]); auto.
Qed.

Lemma stored_action_has_own_badge_witness :
  Forall (λ r, exists a, Sql.d_action r = Some a
                         ∧ badge_label (ActionBadge a) = a)
    (Sql.decisions LogScenario.one_buy_db).
Proof.
  apply Forall_forall. intros r Hr.
  destruct (stored_action_has_own_badge LogScenario.one_buy_db
              reachable_one_buy r Hr) as (a & Ha & Hlabel & _).
  by exists a.
Defined.

(** An action that is none of the three, and an action that names a
    member of [Object.prototype]. *)
Example ActionBadge_other_actions :
  badge_style (ActionBadge "hold") = Some skip_style
  ∧ badge_style (ActionBadge "constructor") = None.
Proof. split; reflexivity. Qed.

Lemma await_update (fetch : Fetch) (args : list Arg) :
  await_call api fetch "updateStrategy" args
  = req fetch (fst (updateStrategy args)) (snd (updateStrategy args)).
Proof. reflexivity. Qed.

Lemma await_create (fetch : Fetch) (args : list Arg) :
  await_call api fetch "createStrategy" args
  = req fetch (fst (createStrategy args)) (snd (createStrategy args)).
Proof. reflexivity. Qed.

Lemma req_accepted (fetch : Fetch) (path : string) (opts : Opts) :
  (exists v, req fetch path opts = Return v)
  <-> accepted fetch (request_of path opts).
Proof.
  unfold accepted. split.
  - intros (v & Hv). apply req_return_inv in Hv as (r & ? & ? & ?). eauto.
  - intros (r & v & ? & ? & ?). exists v. apply req_return_inv. eauto.
Qed.

(** X20.  [toggle] has the server see one request, a PATCH of the
    strategy's own path whose body holds the negated flag under
    [enabled] and nothing else.  The parent is refreshed exactly when
    the server takes that request; an earlier error message then stays
    on the card.  Otherwise a message is recorded and the parent is not
    refreshed.  In both cases the card is no longer saving, and its
    other cells are as before. *)
Theorem toggle_outcome (fetch : Fetch) (s : Strategy) (c : CardState) :
  let c' := fst (toggle fetch s c) in
  let refreshed := snd (toggle fetch s c) in
  expanded c' = expanded c ∧ editing c' = editing c
  ∧ configText c' = configText c ∧ saving c' = false
  ∧ (refreshed = true <-> accepted fetch (toggle_request s))
  ∧ match refreshed with
    | true => err c' = err c
    | false => is_Some (err c')
    end.
Proof.
  cbn zeta. unfold toggle. rewrite await_update.
  pose proof (req_accepted fetch
                (fst (updateStrategy
                        [ANum (id s);
                         ADoc (JObj {["enabled" := JBool (negb (enabled s))]})]))
                (snd (updateStrategy
                        [ANum (id s);
                         ADoc (JObj {["enabled" := JBool (negb (enabled s))]})])))
    as Hacc.
  change (request_of _ _) with (toggle_request s) in Hacc.
  destruct (req fetch _ _) as [v|e]; cbn.
  - repeat (split; [reflexivity|]). split; [|reflexivity].
    split; [intros _; apply Hacc; by exists v | reflexivity].
  - repeat (split; [reflexivity|]). split; [|by eexists].
    split; [discriminate|]. intros H. apply Hacc in H as [v Hv]. discriminate.
Qed.

(** X21.  [saveConfig] with a text that does not parse sends nothing:
    whatever the server would answer, the card records the parser's
    message, stays in edit mode with its text, and the parent is not
    refreshed.  With a text that parses to [doc], the server sees one
    PATCH whose body holds [doc] under [config] and nothing else; the
    card leaves edit mode and the parent is refreshed exactly when the
    server takes it. *)
Theorem saveConfig_outcome (parse : string -> Completion JSON) (fetch : Fetch)
    (s : Strategy) (c : CardState) :
  (forall e, parse (configText c) = Throw e ->
     saveConfig parse fetch s c
     = ({| expanded := expanded c; editing := editing c;
           configText := configText c; saving := false;
           err := Some (message e) |}, false))
  ∧ (forall doc, parse (configText c) = Return doc ->
       (snd (saveConfig parse fetch s c) = true
        <-> accepted fetch (save_request s doc))
       ∧ (snd (saveConfig parse fetch s c) = true ->
          fst (saveConfig parse fetch s c)
          = {| expanded := expanded c; editing := false;
               configText := configText c; saving := false; err := None |})
       ∧ (snd (saveConfig parse fetch s c) = false ->
          editing (fst (saveConfig parse fetch s c)) = editing c
          ∧ is_Some (err (fst (saveConfig parse fetch s c))))).
Proof.
  unfold saveConfig. split.
  - intros e ->. reflexivity.
  - intros doc ->. cbn [mbind completion_bind]. rewrite await_update.
    pose proof (req_accepted fetch
                  (fst (updateStrategy
                          [ANum (id s); ADoc (JObj {["config" := doc]})]))
                  (snd (updateStrategy
                          [ANum (id s); ADoc (JObj {["config" := doc]})])))
      as Hacc.
    change (request_of _ _) with (save_request s doc) in Hacc.
    destruct (req fetch _ _) as [v|e]; cbn.
    + split; [|split; [reflexivity | discriminate]].
      split; [intros _; apply Hacc; by exists v | reflexivity].
    + split; [|split; [discriminate | intros _; split; [reflexivity | by eexists]]].
      split; [discriminate|]. intros H. apply Hacc in H as [v Hv]. discriminate.
Qed.

Lemma toggle_outcome_witness :
  snd (toggle FormScenario.accept_all FormScenario.seeded_card
         FormScenario.broken_edit) = true.
Proof.
  destruct (toggle_outcome FormScenario.accept_all FormScenario.seeded_card
              FormScenario.broken_edit) as (_ & _ & _ & _ & Hiff & _).
  apply Hiff. eexists _, (JObj ∅). repeat split.
Defined.

Lemma saveConfig_outcome_witness :
  saveConfig FormScenario.refuse_all FormScenario.accept_all
    FormScenario.seeded_card FormScenario.broken_edit
  = ({| expanded := true; editing := true; configText := "{ position_pct: ";
        saving := false;
        err := Some (JStr "Unexpected end of JSON input") |}, false).
Proof.
  apply (proj1 (saveConfig_outcome FormScenario.refuse_all
                  FormScenario.accept_all FormScenario.seeded_card
                  FormScenario.broken_edit)
           (SyntaxError "Unexpected end of JSON input")).
  reflexivity.
Defined.

(** X22.  [submit] with a configuration text that does not parse sends
    nothing and keeps the form open with the parser's message.  With a
    text that parses to [doc], the server sees one POST whose body has
    the name, the description and [doc] as the configuration, and no
    enabled flag; the form is hidden, its fields kept, and the parent
    refreshed exactly when the server takes it; otherwise the form stays
    as it is shown, with a message. *)
Theorem submit_outcome (parse : string -> Completion JSON) (fetch : Fetch)
    (c : FormState) :
  (forall e, parse (form_config (form c)) = Throw e ->
     submit parse fetch c
     = ({| show := show c; form := form c; form_saving := false;
           form_err := Some (message e) |}, false))
  ∧ (forall doc, parse (form_config (form c)) = Return doc ->
       get "name" (create_body (form c) doc) = Some (JStr (form_name (form c)))
       ∧ get "description" (create_body (form c) doc)
         = Some (JStr (form_description (form c)))
       ∧ get "config" (create_body (form c) doc) = Some doc
       ∧ get "enabled" (create_body (form c) doc) = None
       ∧ (snd (submit parse fetch c) = true
          <-> accepted fetch (create_request (form c) doc))
       ∧ (snd (submit parse fetch c) = true ->
          fst (submit parse fetch c)
          = {| show := false; form := form c; form_saving := false;
               form_err := None |})
       ∧ (snd (submit parse fetch c) = false ->
          show (fst (submit parse fetch c)) = show c
          ∧ form (fst (submit parse fetch c)) = form c
          ∧ is_Some (form_err (fst (submit parse fetch c))))).
Proof.
  unfold submit. split.
  - intros e ->. reflexivity.
  - intros doc ->. cbn [mbind completion_bind]. rewrite await_create.
    pose proof (req_accepted fetch
                  (fst (createStrategy [ADoc (create_body (form c) doc)]))
                  (snd (createStrategy [ADoc (create_body (form c) doc)])))
      as Hacc.
    change (request_of _ _) with (create_request (form c) doc) in Hacc.
    repeat (split; [reflexivity|]).
    destruct (req fetch _ _) as [v|e]; cbn.
    + split; [|split; [reflexivity | discriminate]].
      split; [intros _; apply Hacc; by exists v | reflexivity].
    + split; [|split; [discriminate | intros _; by eauto]].
      split; [discriminate|]. intros H. apply Hacc in H as [v Hv]. discriminate.
Qed.

Lemma submit_outcome_witness :
  get "enabled"
    (create_body {| form_name := "my_strategy"; form_description := "";
                    form_config := "{}" |} (JObj ∅)) = None.
Proof.
  apply (proj2 (submit_outcome (λ _, Return (JObj ∅)) FormScenario.accept_all
                  {| show := true;
                     form := {| form_name := "my_strategy";
                                form_description := ""; form_config := "{}" |};
                     form_saving := false; form_err := None |})
           (JObj ∅) eq_refl).
Defined.

End ViewExtras.
